(** * Verification of bowtie2's alignment-policy parser

    A shallow embedding of [SeedAlignmentPolicy::parseString]
    (aligner_seed_policy.cpp) and proofs about its tokenisation, its
    defaults, its per-tag handlers and its error behaviour. *)

From Stdlib Require Import ZArith QArith List String Ascii Bool Lia.
From Stdlib Require Import Permutation.
Import ListNotations.
Local Close Scope Q_scope.
Local Open Scope string_scope.

(** ** The iostream operations the parser relies on *)

Module Stream.

(** [std::getline(is, tok, delim)] on a stream whose unread characters are
    [s]: characters are moved to [tok] up to the first [delim], which is
    extracted and dropped.  The result is [tok] and the characters left. *)
Fixpoint getline (delim : ascii) (s : string) : string * string :=
  match s with
  | EmptyString => (EmptyString, EmptyString)
  | String c rest =>
      if Ascii.eqb c delim then (EmptyString, rest)
      else let (tok, rest') := getline delim rest in (String c tok, rest')
  end.

(** [while(getline(is, tok, delim)) toks.push_back(tok);] : a call that
    extracts nothing (the stream is exhausted) sets failbit and ends the
    loop.  Every successful call consumes a character, so [fuel] bounds the
    number of iterations by the length of the input. *)
Fixpoint getline_loop (fuel : nat) (delim : ascii) (s : string) : list string :=
  match fuel with
  | O => []
  | S fuel' =>
      match s with
      | EmptyString => []
      | String _ _ =>
          let (tok, rest) := getline delim s in
          tok :: getline_loop fuel' delim rest
      end
  end.

Definition split (delim : ascii) (s : string) : list string :=
  getline_loop (S (String.length s)) delim s.

(** The same list by structural recursion on the text: a delimiter closes
    the current field, and a text that ends right after a delimiter has no
    further (empty) field. *)
Fixpoint fields (delim : ascii) (s : string) : list string :=
  match s with
  | EmptyString => []
  | String c rest =>
      if Ascii.eqb c delim then EmptyString :: fields delim rest
      else match fields delim rest with
           | [] => [String c EmptyString]
           | f :: fs => String c f :: fs
           end
  end.

(** [std::isspace] in the "C" locale. *)
Definition isspace (c : ascii) : bool :=
  let n := N_of_ascii c in
  (n =? 32)%N || ((9 <=? n)%N && (n <=? 13)%N).

(** Leading white space is skipped by every formatted extraction. *)
Fixpoint skipws (s : string) : string :=
  match s with
  | String c rest => if isspace c then skipws rest else s
  | EmptyString => s
  end.

Definition digit (c : ascii) : option Z :=
  let n := N_of_ascii c in
  if ((48 <=? n)%N && (n <=? 57)%N)%bool then Some (Z.of_N n - 48)%Z else None.

(** The longest run of decimal digits at the head of [s], accumulated onto
    [acc]; [n] counts the digits read; the unread characters are returned. *)
Fixpoint digits (s : string) (acc : Z) (n : nat) : Z * nat * string :=
  match s with
  | String c rest =>
      match digit c with
      | Some d => digits rest (10 * acc + d)%Z (S n)
      | None => (acc, n, s)
      end
  | EmptyString => (acc, n, s)
  end.

Definition sign (s : string) : bool * string :=
  match s with
  | String "-"%char rest => (true, rest)
  | String "+"%char rest => (false, rest)
  | _ => (false, s)
  end.

Definition INT_MAX : Z := 2147483647.
Definition INT_MIN : Z := -2147483648.

(** [istringstream(tok) >> x] for [int x] (a 32-bit int), where [old] is
    the value [x] holds before the extraction.  The stream's sentry skips
    the leading white space first; if that exhausts the stream (the token
    is empty or all white space) the extraction fails before anything is
    read and [x] is not written.  Otherwise an optional sign and decimal
    digits are read and whatever follows stays unread: with no digit the
    extraction fails and stores 0; a value out of range is stored as the
    nearest bound.  A failure is recorded only in the stream's failbit, and
    the parser never looks at the stream again. *)
Definition extract_int (tok : string) (old : Z) : Z :=
  match skipws tok with
  | EmptyString => old
  | String _ _ =>
      let (neg, s) := sign (skipws tok) in
      let '(v, n, _) := digits s 0%Z 0%nat in
      match n with
      | O => 0%Z
      | S _ => Z.max INT_MIN (Z.min INT_MAX (if neg then - v else v))
      end
  end.

(** The exponent part of a floating-point literal: absent (0), or [e]/[E],
    an optional sign and at least one digit. *)
Definition exponent (s : string) : option Z :=
  match s with
  | String c rest =>
      if (Ascii.eqb c "e" || Ascii.eqb c "E")%bool then
        let (neg, s') := sign rest in
        let '(v, n, _) := digits s' 0%Z 0%nat in
        match n with
        | O => None
        | S _ => Some (if neg then - v else v)%Z
        end
      else Some 0%Z
  | EmptyString => Some 0%Z
  end.

(** m * 10^e as a rational in lowest terms. *)
Definition scale10 (m e : Z) : Q :=
  Qred (if (0 <=? e)%Z then inject_Z (m * 10 ^ e)
        else Qmake m (Pos.pow 10 (Z.to_pos (- e)))).

(** The decimal literal at the head of [tok]:
    [ws] [sign] digits [ "." digits ] [ exponent ], with at least one digit
    before the exponent; [None] when the characters do not form one.  The
    result is whether a minus sign was read, and the exact (signed) value. *)
Definition decimal (tok : string) : option (bool * Q) :=
  let (neg, s) := sign (skipws tok) in
  let '(ip, ni, s1) := digits s 0%Z 0%nat in
  let '(m, nf, s2) :=
    match s1 with
    | String "."%char rest => digits rest ip 0%nat
    | _ => (ip, 0%nat, s1)
    end in
  match (ni + nf)%nat with
  | O => None
  | S _ =>
      match exponent s2 with
      | None => None
      | Some e =>
          Some (neg, scale10 (if neg then - m else m) (e - Z.of_nat nf))
      end
  end.

Fixpoint has (d : ascii) (s : string) : bool :=
  match s with
  | EmptyString => false
  | String c rest => Ascii.eqb c d || has d rest
  end.

(** The last character of a text (the null character for the empty one). *)
Fixpoint last_char (s : string) : ascii :=
  match s with
  | EmptyString => zero
  | String c EmptyString => c
  | String _ rest => last_char rest
  end.

End Stream.

(** ** The scoring and seed constants of the headers *)

(** Modelled from the spec: the cost-model enumeration (COST_MODEL_CONSTANT,
    COST_MODEL_QUAL, COST_MODEL_ROUNDED_QUAL) is declared in a header that is
    not part of the sources at hand; the spec gives it as a three-way variant:
    a fixed constant, the base's quality value, the quality value rounded to
    the nearest 10 and capped at 30. *)
Inductive CostModel : Type :=
  | COST_MODEL_ROUNDED_QUAL
  | COST_MODEL_QUAL
  | COST_MODEL_CONSTANT.

(** Modelled from the spec: the seed-interval enumeration (SEED_IVAL_LINEAR,
    SEED_IVAL_SQUARE_ROOT, SEED_IVAL_CUBE_ROOT) of the same missing header;
    the interval is a linear function of the read length, of its square root
    or of its cube root. *)
Inductive IvalType : Type :=
  | SEED_IVAL_LINEAR
  | SEED_IVAL_SQUARE_ROOT
  | SEED_IVAL_CUBE_ROOT.

(** What [throw 1] reports on the error stream before it aborts the parse,
    one constructor per message. *)
Inductive Error : Type :=
  | MalformedClause (setting : nat)
      (* "must be bisected by = sign" *)
  | NoToken (setting : nat)
      (* "RHS must have at least 1 token" *)
  | TooManyTokens (setting : nat)
      (* "RHS must have at most 3 tokens" *)
  | EmptyToken (setting : nat) (token : nat)
      (* "token i on RHS had length=0" *)
  | NotOneToken (setting : nat)
      (* MA, SNP: "RHS must have 1 token" *)
  | NotOneTokenTag (tag : string)
      (* MMP, NP: "RHS must have 1 token" *)
  | UnrecognizedCostModelPrefix (tag : string)
      (* "RHS must start with C, Q or R" *)
  | UnknownTag (tag : string).
      (* "Unexpected alignment policy setting" *)

Inductive result (A : Type) : Type :=
  | Ok (a : A)
  | Throw (e : Error).
Arguments Ok {A} a.
Arguments Throw {A} e.

Definition bind {A B : Type} (r : result A) (k : A -> result B) : result B :=
  match r with
  | Ok a => k a
  | Throw e => Throw e
  end.

Definition is_ok {A : Type} (r : result A) : bool :=
  match r with
  | Ok _ => true
  | Throw _ => false
  end.

(** [s[0]]: the first character; for an empty string the terminating null. *)
Definition char0 (s : string) : ascii :=
  match s with
  | String c _ => c
  | EmptyString => zero
  end.

(** [s.substr(1)] for a string that has a first character. *)
Definition substr1 (s : string) : string :=
  match s with
  | String _ rest => rest
  | EmptyString => EmptyString
  end.

(** [ctoks[i]] *)
Definition at_ (l : list string) (i : nat) : string := nth i l EmptyString.

(** The loop that rejects an empty sub-token: the 1-based position of the
    first token of length 0, counting from [i]. *)
Fixpoint first_empty (i : nat) (ctoks : list string) : option nat :=
  match ctoks with
  | [] => None
  | t :: rest =>
      if (String.length t =? 0)%nat then Some (i + 1)%nat
      else first_empty (S i) rest
  end.

Set Implicit Arguments.

(** The DEFAULT_ macros parseString reads.  Their header is not among the
    sources, so the parser is verified for arbitrary values of them. *)
Record Defaults (float : Type) : Type := Build_Defaults {
  DEFAULT_MATCH_BONUS_TYPE : CostModel;
  DEFAULT_MATCH_BONUS : Z;
  DEFAULT_MATCH_BONUS_TYPE_LOCAL : CostModel;
  DEFAULT_MATCH_BONUS_LOCAL : Z;
  DEFAULT_MM_PENALTY_TYPE : CostModel;
  DEFAULT_MM_PENALTY : Z;
  DEFAULT_SNP_PENALTY : Z;
  DEFAULT_N_PENALTY_TYPE : CostModel;
  DEFAULT_N_PENALTY : Z;
  DEFAULT_MIN_CONST : float;
  DEFAULT_MIN_LINEAR : float;
  DEFAULT_MIN_CONST_LOCAL : float;
  DEFAULT_MIN_LINEAR_LOCAL : float;
  DEFAULT_FLOOR_CONST : float;
  DEFAULT_FLOOR_LINEAR : float;
  DEFAULT_FLOOR_CONST_LOCAL : float;
  DEFAULT_FLOOR_LINEAR_LOCAL : float;
  DEFAULT_N_CEIL_CONST : float;
  DEFAULT_N_CEIL_LINEAR : float;
  DEFAULT_N_CAT_PAIR : bool;
  DEFAULT_READ_GAP_CONST : Z;
  DEFAULT_READ_GAP_LINEAR : Z;
  DEFAULT_REF_GAP_CONST : Z;
  DEFAULT_REF_GAP_LINEAR : Z;
  DEFAULT_READ_GAP_CONST_BADHPOLY : Z;
  DEFAULT_READ_GAP_LINEAR_BADHPOLY : Z;
  DEFAULT_REF_GAP_CONST_BADHPOLY : Z;
  DEFAULT_REF_GAP_LINEAR_BADHPOLY : Z;
  DEFAULT_SEEDMMS : Z;
  DEFAULT_SEEDLEN : Z;
  DEFAULT_SEEDPERIOD : Z;
  DEFAULT_IVAL : IvalType;
  DEFAULT_IVAL_A : float;
  DEFAULT_IVAL_B : float;
  DEFAULT_POSMIN : float;
  DEFAULT_POSFRAC : float;
  DEFAULT_ROWMIN : float;
  DEFAULT_ROWMULT : float
}.

(** A header to run the parser on: the defaults that the comment above
    parseString documents (MA=0, or 2 with --local; MMP=C6; SNP=6; NP=C1;
    RDG=5,3; RFG=5,3; MIN=-0.6,-0.6, or 0.0,0.66; FL=-Infinity,0.0, or
    0.0,0.0; NCEIL=0.0,0.15; SEED=0,22; IVAL=S,1.0,0.0), and values of our
    own choosing for those it does not give.  Floats are kept as the exact
    decimal read, with the two values a decimal does not denote. *)
Inductive sample_float : Type :=
  | Finite (q : Q)
  | NegZero
  | NegInfinity.

Definition sample_defaults : Defaults sample_float :=
  {| DEFAULT_MATCH_BONUS_TYPE := COST_MODEL_CONSTANT;
     DEFAULT_MATCH_BONUS := 0;
     DEFAULT_MATCH_BONUS_TYPE_LOCAL := COST_MODEL_CONSTANT;
     DEFAULT_MATCH_BONUS_LOCAL := 2;
     DEFAULT_MM_PENALTY_TYPE := COST_MODEL_CONSTANT;
     DEFAULT_MM_PENALTY := 6;
     DEFAULT_SNP_PENALTY := 6;
     DEFAULT_N_PENALTY_TYPE := COST_MODEL_CONSTANT;
     DEFAULT_N_PENALTY := 1;
     DEFAULT_MIN_CONST := Finite (-6 # 10);
     DEFAULT_MIN_LINEAR := Finite (-6 # 10);
     DEFAULT_MIN_CONST_LOCAL := Finite 0;
     DEFAULT_MIN_LINEAR_LOCAL := Finite (66 # 100);
     DEFAULT_FLOOR_CONST := NegInfinity;
     DEFAULT_FLOOR_LINEAR := Finite 0;
     DEFAULT_FLOOR_CONST_LOCAL := Finite 0;
     DEFAULT_FLOOR_LINEAR_LOCAL := Finite 0;
     DEFAULT_N_CEIL_CONST := Finite 0;
     DEFAULT_N_CEIL_LINEAR := Finite (15 # 100);
     DEFAULT_N_CAT_PAIR := false;
     DEFAULT_READ_GAP_CONST := 5;
     DEFAULT_READ_GAP_LINEAR := 3;
     DEFAULT_REF_GAP_CONST := 5;
     DEFAULT_REF_GAP_LINEAR := 3;
     DEFAULT_READ_GAP_CONST_BADHPOLY := 3;
     DEFAULT_READ_GAP_LINEAR_BADHPOLY := 1;
     DEFAULT_REF_GAP_CONST_BADHPOLY := 3;
     DEFAULT_REF_GAP_LINEAR_BADHPOLY := 1;
     DEFAULT_SEEDMMS := 0;
     DEFAULT_SEEDLEN := 22;
     DEFAULT_SEEDPERIOD := -1;
     DEFAULT_IVAL := SEED_IVAL_SQUARE_ROOT;
     DEFAULT_IVAL_A := Finite 1;
     DEFAULT_IVAL_B := Finite 0;
     DEFAULT_POSMIN := Finite 4;
     DEFAULT_POSFRAC := Finite (3 # 100);
     DEFAULT_ROWMIN := Finite 5;
     DEFAULT_ROWMULT := Finite 2 |}%Z.

Section Parser.

(** The C++ [float]: its values are taken as given, together with the
    conversion from the exact value of a decimal literal that both the
    compiler (for [1.0f]) and the stream extraction apply, and the negative
    zero, which is what a literal of value zero with a minus sign reads as. *)
Variable float : Type.
Variable float_of_decimal : Q -> float.
Variable float_negative_zero : float.

(** [istringstream(tok) >> x] for [float x], where [old] is the value [x]
    holds before the extraction.  As for [int]: a token that is empty or
    all white space fails in the sentry and leaves [x] as it is; any other
    token that does not start with a literal fails and stores zero. *)
Definition extract_float (tok : string) (old : float) : float :=
  match Stream.skipws tok with
  | EmptyString => old
  | String _ _ =>
      match Stream.decimal tok with
      | Some (neg, q) =>
          if (neg && (Qnum q =? 0)%Z)%bool then float_negative_zero
          else float_of_decimal q
      | None => float_of_decimal 0
      end
  end.

Variable D : Defaults float.

(** ** The output parameters of parseString, as one value *)

Record Policy : Type := Build_Policy {
  bonusMatchType : CostModel;
  bonusMatch : Z;
  penMmcType : CostModel;
  penMmc : Z;
  penSnp : Z;
  penNType : CostModel;
  penN : Z;
  penRdExConst : Z;
  penRfExConst : Z;
  penRdExLinear : Z;
  penRfExLinear : Z;
  costMinConst : float;
  costMinLinear : float;
  costFloorConst : float;
  costFloorLinear : float;
  nCeilConst : float;
  nCeilLinear : float;
  nCatPair : bool;
  multiseedMms : Z;
  multiseedLen : Z;
  multiseedPeriod : Z;
  multiseedIvalType : IvalType;
  multiseedIvalA : float;
  multiseedIvalB : float;
  posmin : float;
  posfrac : float;
  rowmin : float;
  rowmult : float
}.

(** Assignment through one of the reference parameters: the named field is
    overwritten, every other field keeps its value. *)
Definition set_bonusMatch (v : Z) (p : Policy) : Policy :=
  {| bonusMatchType := bonusMatchType p; bonusMatch := v;
     penMmcType := penMmcType p; penMmc := penMmc p; penSnp := penSnp p;
     penNType := penNType p; penN := penN p; penRdExConst := penRdExConst p;
     penRfExConst := penRfExConst p; penRdExLinear := penRdExLinear p;
     penRfExLinear := penRfExLinear p; costMinConst := costMinConst p;
     costMinLinear := costMinLinear p; costFloorConst := costFloorConst p;
     costFloorLinear := costFloorLinear p; nCeilConst := nCeilConst p;
     nCeilLinear := nCeilLinear p; nCatPair := nCatPair p;
     multiseedMms := multiseedMms p; multiseedLen := multiseedLen p;
     multiseedPeriod := multiseedPeriod p;
     multiseedIvalType := multiseedIvalType p;
     multiseedIvalA := multiseedIvalA p; multiseedIvalB := multiseedIvalB p;
     posmin := posmin p; posfrac := posfrac p; rowmin := rowmin p;
     rowmult := rowmult p |}.

Definition set_penMmcType (v : CostModel) (p : Policy) : Policy :=
  {| bonusMatchType := bonusMatchType p; bonusMatch := bonusMatch p;
     penMmcType := v; penMmc := penMmc p; penSnp := penSnp p;
     penNType := penNType p; penN := penN p; penRdExConst := penRdExConst p;
     penRfExConst := penRfExConst p; penRdExLinear := penRdExLinear p;
     penRfExLinear := penRfExLinear p; costMinConst := costMinConst p;
     costMinLinear := costMinLinear p; costFloorConst := costFloorConst p;
     costFloorLinear := costFloorLinear p; nCeilConst := nCeilConst p;
     nCeilLinear := nCeilLinear p; nCatPair := nCatPair p;
     multiseedMms := multiseedMms p; multiseedLen := multiseedLen p;
     multiseedPeriod := multiseedPeriod p;
     multiseedIvalType := multiseedIvalType p;
     multiseedIvalA := multiseedIvalA p; multiseedIvalB := multiseedIvalB p;
     posmin := posmin p; posfrac := posfrac p; rowmin := rowmin p;
     rowmult := rowmult p |}.

Definition set_penMmc (v : Z) (p : Policy) : Policy :=
  {| bonusMatchType := bonusMatchType p; bonusMatch := bonusMatch p;
     penMmcType := penMmcType p; penMmc := v; penSnp := penSnp p;
     penNType := penNType p; penN := penN p; penRdExConst := penRdExConst p;
     penRfExConst := penRfExConst p; penRdExLinear := penRdExLinear p;
     penRfExLinear := penRfExLinear p; costMinConst := costMinConst p;
     costMinLinear := costMinLinear p; costFloorConst := costFloorConst p;
     costFloorLinear := costFloorLinear p; nCeilConst := nCeilConst p;
     nCeilLinear := nCeilLinear p; nCatPair := nCatPair p;
     multiseedMms := multiseedMms p; multiseedLen := multiseedLen p;
     multiseedPeriod := multiseedPeriod p;
     multiseedIvalType := multiseedIvalType p;
     multiseedIvalA := multiseedIvalA p; multiseedIvalB := multiseedIvalB p;
     posmin := posmin p; posfrac := posfrac p; rowmin := rowmin p;
     rowmult := rowmult p |}.

Definition set_penSnp (v : Z) (p : Policy) : Policy :=
  {| bonusMatchType := bonusMatchType p; bonusMatch := bonusMatch p;
     penMmcType := penMmcType p; penMmc := penMmc p; penSnp := v;
     penNType := penNType p; penN := penN p; penRdExConst := penRdExConst p;
     penRfExConst := penRfExConst p; penRdExLinear := penRdExLinear p;
     penRfExLinear := penRfExLinear p; costMinConst := costMinConst p;
     costMinLinear := costMinLinear p; costFloorConst := costFloorConst p;
     costFloorLinear := costFloorLinear p; nCeilConst := nCeilConst p;
     nCeilLinear := nCeilLinear p; nCatPair := nCatPair p;
     multiseedMms := multiseedMms p; multiseedLen := multiseedLen p;
     multiseedPeriod := multiseedPeriod p;
     multiseedIvalType := multiseedIvalType p;
     multiseedIvalA := multiseedIvalA p; multiseedIvalB := multiseedIvalB p;
     posmin := posmin p; posfrac := posfrac p; rowmin := rowmin p;
     rowmult := rowmult p |}.

Definition set_penNType (v : CostModel) (p : Policy) : Policy :=
  {| bonusMatchType := bonusMatchType p; bonusMatch := bonusMatch p;
     penMmcType := penMmcType p; penMmc := penMmc p; penSnp := penSnp p;
     penNType := v; penN := penN p; penRdExConst := penRdExConst p;
     penRfExConst := penRfExConst p; penRdExLinear := penRdExLinear p;
     penRfExLinear := penRfExLinear p; costMinConst := costMinConst p;
     costMinLinear := costMinLinear p; costFloorConst := costFloorConst p;
     costFloorLinear := costFloorLinear p; nCeilConst := nCeilConst p;
     nCeilLinear := nCeilLinear p; nCatPair := nCatPair p;
     multiseedMms := multiseedMms p; multiseedLen := multiseedLen p;
     multiseedPeriod := multiseedPeriod p;
     multiseedIvalType := multiseedIvalType p;
     multiseedIvalA := multiseedIvalA p; multiseedIvalB := multiseedIvalB p;
     posmin := posmin p; posfrac := posfrac p; rowmin := rowmin p;
     rowmult := rowmult p |}.

Definition set_penN (v : Z) (p : Policy) : Policy :=
  {| bonusMatchType := bonusMatchType p; bonusMatch := bonusMatch p;
     penMmcType := penMmcType p; penMmc := penMmc p; penSnp := penSnp p;
     penNType := penNType p; penN := v; penRdExConst := penRdExConst p;
     penRfExConst := penRfExConst p; penRdExLinear := penRdExLinear p;
     penRfExLinear := penRfExLinear p; costMinConst := costMinConst p;
     costMinLinear := costMinLinear p; costFloorConst := costFloorConst p;
     costFloorLinear := costFloorLinear p; nCeilConst := nCeilConst p;
     nCeilLinear := nCeilLinear p; nCatPair := nCatPair p;
     multiseedMms := multiseedMms p; multiseedLen := multiseedLen p;
     multiseedPeriod := multiseedPeriod p;
     multiseedIvalType := multiseedIvalType p;
     multiseedIvalA := multiseedIvalA p; multiseedIvalB := multiseedIvalB p;
     posmin := posmin p; posfrac := posfrac p; rowmin := rowmin p;
     rowmult := rowmult p |}.

Definition set_penRdExConst (v : Z) (p : Policy) : Policy :=
  {| bonusMatchType := bonusMatchType p; bonusMatch := bonusMatch p;
     penMmcType := penMmcType p; penMmc := penMmc p; penSnp := penSnp p;
     penNType := penNType p; penN := penN p; penRdExConst := v;
     penRfExConst := penRfExConst p; penRdExLinear := penRdExLinear p;
     penRfExLinear := penRfExLinear p; costMinConst := costMinConst p;
     costMinLinear := costMinLinear p; costFloorConst := costFloorConst p;
     costFloorLinear := costFloorLinear p; nCeilConst := nCeilConst p;
     nCeilLinear := nCeilLinear p; nCatPair := nCatPair p;
     multiseedMms := multiseedMms p; multiseedLen := multiseedLen p;
     multiseedPeriod := multiseedPeriod p;
     multiseedIvalType := multiseedIvalType p;
     multiseedIvalA := multiseedIvalA p; multiseedIvalB := multiseedIvalB p;
     posmin := posmin p; posfrac := posfrac p; rowmin := rowmin p;
     rowmult := rowmult p |}.

Definition set_penRfExConst (v : Z) (p : Policy) : Policy :=
  {| bonusMatchType := bonusMatchType p; bonusMatch := bonusMatch p;
     penMmcType := penMmcType p; penMmc := penMmc p; penSnp := penSnp p;
     penNType := penNType p; penN := penN p; penRdExConst := penRdExConst p;
     penRfExConst := v; penRdExLinear := penRdExLinear p;
     penRfExLinear := penRfExLinear p; costMinConst := costMinConst p;
     costMinLinear := costMinLinear p; costFloorConst := costFloorConst p;
     costFloorLinear := costFloorLinear p; nCeilConst := nCeilConst p;
     nCeilLinear := nCeilLinear p; nCatPair := nCatPair p;
     multiseedMms := multiseedMms p; multiseedLen := multiseedLen p;
     multiseedPeriod := multiseedPeriod p;
     multiseedIvalType := multiseedIvalType p;
     multiseedIvalA := multiseedIvalA p; multiseedIvalB := multiseedIvalB p;
     posmin := posmin p; posfrac := posfrac p; rowmin := rowmin p;
     rowmult := rowmult p |}.

Definition set_penRdExLinear (v : Z) (p : Policy) : Policy :=
  {| bonusMatchType := bonusMatchType p; bonusMatch := bonusMatch p;
     penMmcType := penMmcType p; penMmc := penMmc p; penSnp := penSnp p;
     penNType := penNType p; penN := penN p; penRdExConst := penRdExConst p;
     penRfExConst := penRfExConst p; penRdExLinear := v;
     penRfExLinear := penRfExLinear p; costMinConst := costMinConst p;
     costMinLinear := costMinLinear p; costFloorConst := costFloorConst p;
     costFloorLinear := costFloorLinear p; nCeilConst := nCeilConst p;
     nCeilLinear := nCeilLinear p; nCatPair := nCatPair p;
     multiseedMms := multiseedMms p; multiseedLen := multiseedLen p;
     multiseedPeriod := multiseedPeriod p;
     multiseedIvalType := multiseedIvalType p;
     multiseedIvalA := multiseedIvalA p; multiseedIvalB := multiseedIvalB p;
     posmin := posmin p; posfrac := posfrac p; rowmin := rowmin p;
     rowmult := rowmult p |}.

Definition set_penRfExLinear (v : Z) (p : Policy) : Policy :=
  {| bonusMatchType := bonusMatchType p; bonusMatch := bonusMatch p;
     penMmcType := penMmcType p; penMmc := penMmc p; penSnp := penSnp p;
     penNType := penNType p; penN := penN p; penRdExConst := penRdExConst p;
     penRfExConst := penRfExConst p; penRdExLinear := penRdExLinear p;
     penRfExLinear := v; costMinConst := costMinConst p;
     costMinLinear := costMinLinear p; costFloorConst := costFloorConst p;
     costFloorLinear := costFloorLinear p; nCeilConst := nCeilConst p;
     nCeilLinear := nCeilLinear p; nCatPair := nCatPair p;
     multiseedMms := multiseedMms p; multiseedLen := multiseedLen p;
     multiseedPeriod := multiseedPeriod p;
     multiseedIvalType := multiseedIvalType p;
     multiseedIvalA := multiseedIvalA p; multiseedIvalB := multiseedIvalB p;
     posmin := posmin p; posfrac := posfrac p; rowmin := rowmin p;
     rowmult := rowmult p |}.

Definition set_costMinConst (v : float) (p : Policy) : Policy :=
  {| bonusMatchType := bonusMatchType p; bonusMatch := bonusMatch p;
     penMmcType := penMmcType p; penMmc := penMmc p; penSnp := penSnp p;
     penNType := penNType p; penN := penN p; penRdExConst := penRdExConst p;
     penRfExConst := penRfExConst p; penRdExLinear := penRdExLinear p;
     penRfExLinear := penRfExLinear p; costMinConst := v;
     costMinLinear := costMinLinear p; costFloorConst := costFloorConst p;
     costFloorLinear := costFloorLinear p; nCeilConst := nCeilConst p;
     nCeilLinear := nCeilLinear p; nCatPair := nCatPair p;
     multiseedMms := multiseedMms p; multiseedLen := multiseedLen p;
     multiseedPeriod := multiseedPeriod p;
     multiseedIvalType := multiseedIvalType p;
     multiseedIvalA := multiseedIvalA p; multiseedIvalB := multiseedIvalB p;
     posmin := posmin p; posfrac := posfrac p; rowmin := rowmin p;
     rowmult := rowmult p |}.

Definition set_costMinLinear (v : float) (p : Policy) : Policy :=
  {| bonusMatchType := bonusMatchType p; bonusMatch := bonusMatch p;
     penMmcType := penMmcType p; penMmc := penMmc p; penSnp := penSnp p;
     penNType := penNType p; penN := penN p; penRdExConst := penRdExConst p;
     penRfExConst := penRfExConst p; penRdExLinear := penRdExLinear p;
     penRfExLinear := penRfExLinear p; costMinConst := costMinConst p;
     costMinLinear := v; costFloorConst := costFloorConst p;
     costFloorLinear := costFloorLinear p; nCeilConst := nCeilConst p;
     nCeilLinear := nCeilLinear p; nCatPair := nCatPair p;
     multiseedMms := multiseedMms p; multiseedLen := multiseedLen p;
     multiseedPeriod := multiseedPeriod p;
     multiseedIvalType := multiseedIvalType p;
     multiseedIvalA := multiseedIvalA p; multiseedIvalB := multiseedIvalB p;
     posmin := posmin p; posfrac := posfrac p; rowmin := rowmin p;
     rowmult := rowmult p |}.

Definition set_costFloorConst (v : float) (p : Policy) : Policy :=
  {| bonusMatchType := bonusMatchType p; bonusMatch := bonusMatch p;
     penMmcType := penMmcType p; penMmc := penMmc p; penSnp := penSnp p;
     penNType := penNType p; penN := penN p; penRdExConst := penRdExConst p;
     penRfExConst := penRfExConst p; penRdExLinear := penRdExLinear p;
     penRfExLinear := penRfExLinear p; costMinConst := costMinConst p;
     costMinLinear := costMinLinear p; costFloorConst := v;
     costFloorLinear := costFloorLinear p; nCeilConst := nCeilConst p;
     nCeilLinear := nCeilLinear p; nCatPair := nCatPair p;
     multiseedMms := multiseedMms p; multiseedLen := multiseedLen p;
     multiseedPeriod := multiseedPeriod p;
     multiseedIvalType := multiseedIvalType p;
     multiseedIvalA := multiseedIvalA p; multiseedIvalB := multiseedIvalB p;
     posmin := posmin p; posfrac := posfrac p; rowmin := rowmin p;
     rowmult := rowmult p |}.

Definition set_costFloorLinear (v : float) (p : Policy) : Policy :=
  {| bonusMatchType := bonusMatchType p; bonusMatch := bonusMatch p;
     penMmcType := penMmcType p; penMmc := penMmc p; penSnp := penSnp p;
     penNType := penNType p; penN := penN p; penRdExConst := penRdExConst p;
     penRfExConst := penRfExConst p; penRdExLinear := penRdExLinear p;
     penRfExLinear := penRfExLinear p; costMinConst := costMinConst p;
     costMinLinear := costMinLinear p; costFloorConst := costFloorConst p;
     costFloorLinear := v; nCeilConst := nCeilConst p;
     nCeilLinear := nCeilLinear p; nCatPair := nCatPair p;
     multiseedMms := multiseedMms p; multiseedLen := multiseedLen p;
     multiseedPeriod := multiseedPeriod p;
     multiseedIvalType := multiseedIvalType p;
     multiseedIvalA := multiseedIvalA p; multiseedIvalB := multiseedIvalB p;
     posmin := posmin p; posfrac := posfrac p; rowmin := rowmin p;
     rowmult := rowmult p |}.

Definition set_nCeilConst (v : float) (p : Policy) : Policy :=
  {| bonusMatchType := bonusMatchType p; bonusMatch := bonusMatch p;
     penMmcType := penMmcType p; penMmc := penMmc p; penSnp := penSnp p;
     penNType := penNType p; penN := penN p; penRdExConst := penRdExConst p;
     penRfExConst := penRfExConst p; penRdExLinear := penRdExLinear p;
     penRfExLinear := penRfExLinear p; costMinConst := costMinConst p;
     costMinLinear := costMinLinear p; costFloorConst := costFloorConst p;
     costFloorLinear := costFloorLinear p; nCeilConst := v;
     nCeilLinear := nCeilLinear p; nCatPair := nCatPair p;
     multiseedMms := multiseedMms p; multiseedLen := multiseedLen p;
     multiseedPeriod := multiseedPeriod p;
     multiseedIvalType := multiseedIvalType p;
     multiseedIvalA := multiseedIvalA p; multiseedIvalB := multiseedIvalB p;
     posmin := posmin p; posfrac := posfrac p; rowmin := rowmin p;
     rowmult := rowmult p |}.

Definition set_nCeilLinear (v : float) (p : Policy) : Policy :=
  {| bonusMatchType := bonusMatchType p; bonusMatch := bonusMatch p;
     penMmcType := penMmcType p; penMmc := penMmc p; penSnp := penSnp p;
     penNType := penNType p; penN := penN p; penRdExConst := penRdExConst p;
     penRfExConst := penRfExConst p; penRdExLinear := penRdExLinear p;
     penRfExLinear := penRfExLinear p; costMinConst := costMinConst p;
     costMinLinear := costMinLinear p; costFloorConst := costFloorConst p;
     costFloorLinear := costFloorLinear p; nCeilConst := nCeilConst p;
     nCeilLinear := v; nCatPair := nCatPair p;
     multiseedMms := multiseedMms p; multiseedLen := multiseedLen p;
     multiseedPeriod := multiseedPeriod p;
     multiseedIvalType := multiseedIvalType p;
     multiseedIvalA := multiseedIvalA p; multiseedIvalB := multiseedIvalB p;
     posmin := posmin p; posfrac := posfrac p; rowmin := rowmin p;
     rowmult := rowmult p |}.

Definition set_multiseedMms (v : Z) (p : Policy) : Policy :=
  {| bonusMatchType := bonusMatchType p; bonusMatch := bonusMatch p;
     penMmcType := penMmcType p; penMmc := penMmc p; penSnp := penSnp p;
     penNType := penNType p; penN := penN p; penRdExConst := penRdExConst p;
     penRfExConst := penRfExConst p; penRdExLinear := penRdExLinear p;
     penRfExLinear := penRfExLinear p; costMinConst := costMinConst p;
     costMinLinear := costMinLinear p; costFloorConst := costFloorConst p;
     costFloorLinear := costFloorLinear p; nCeilConst := nCeilConst p;
     nCeilLinear := nCeilLinear p; nCatPair := nCatPair p; multiseedMms := v;
     multiseedLen := multiseedLen p; multiseedPeriod := multiseedPeriod p;
     multiseedIvalType := multiseedIvalType p;
     multiseedIvalA := multiseedIvalA p; multiseedIvalB := multiseedIvalB p;
     posmin := posmin p; posfrac := posfrac p; rowmin := rowmin p;
     rowmult := rowmult p |}.

Definition set_multiseedLen (v : Z) (p : Policy) : Policy :=
  {| bonusMatchType := bonusMatchType p; bonusMatch := bonusMatch p;
     penMmcType := penMmcType p; penMmc := penMmc p; penSnp := penSnp p;
     penNType := penNType p; penN := penN p; penRdExConst := penRdExConst p;
     penRfExConst := penRfExConst p; penRdExLinear := penRdExLinear p;
     penRfExLinear := penRfExLinear p; costMinConst := costMinConst p;
     costMinLinear := costMinLinear p; costFloorConst := costFloorConst p;
     costFloorLinear := costFloorLinear p; nCeilConst := nCeilConst p;
     nCeilLinear := nCeilLinear p; nCatPair := nCatPair p;
     multiseedMms := multiseedMms p; multiseedLen := v;
     multiseedPeriod := multiseedPeriod p;
     multiseedIvalType := multiseedIvalType p;
     multiseedIvalA := multiseedIvalA p; multiseedIvalB := multiseedIvalB p;
     posmin := posmin p; posfrac := posfrac p; rowmin := rowmin p;
     rowmult := rowmult p |}.

Definition set_multiseedPeriod (v : Z) (p : Policy) : Policy :=
  {| bonusMatchType := bonusMatchType p; bonusMatch := bonusMatch p;
     penMmcType := penMmcType p; penMmc := penMmc p; penSnp := penSnp p;
     penNType := penNType p; penN := penN p; penRdExConst := penRdExConst p;
     penRfExConst := penRfExConst p; penRdExLinear := penRdExLinear p;
     penRfExLinear := penRfExLinear p; costMinConst := costMinConst p;
     costMinLinear := costMinLinear p; costFloorConst := costFloorConst p;
     costFloorLinear := costFloorLinear p; nCeilConst := nCeilConst p;
     nCeilLinear := nCeilLinear p; nCatPair := nCatPair p;
     multiseedMms := multiseedMms p; multiseedLen := multiseedLen p;
     multiseedPeriod := v; multiseedIvalType := multiseedIvalType p;
     multiseedIvalA := multiseedIvalA p; multiseedIvalB := multiseedIvalB p;
     posmin := posmin p; posfrac := posfrac p; rowmin := rowmin p;
     rowmult := rowmult p |}.

Definition set_multiseedIvalType (v : IvalType) (p : Policy) : Policy :=
  {| bonusMatchType := bonusMatchType p; bonusMatch := bonusMatch p;
     penMmcType := penMmcType p; penMmc := penMmc p; penSnp := penSnp p;
     penNType := penNType p; penN := penN p; penRdExConst := penRdExConst p;
     penRfExConst := penRfExConst p; penRdExLinear := penRdExLinear p;
     penRfExLinear := penRfExLinear p; costMinConst := costMinConst p;
     costMinLinear := costMinLinear p; costFloorConst := costFloorConst p;
     costFloorLinear := costFloorLinear p; nCeilConst := nCeilConst p;
     nCeilLinear := nCeilLinear p; nCatPair := nCatPair p;
     multiseedMms := multiseedMms p; multiseedLen := multiseedLen p;
     multiseedPeriod := multiseedPeriod p; multiseedIvalType := v;
     multiseedIvalA := multiseedIvalA p; multiseedIvalB := multiseedIvalB p;
     posmin := posmin p; posfrac := posfrac p; rowmin := rowmin p;
     rowmult := rowmult p |}.

Definition set_multiseedIvalA (v : float) (p : Policy) : Policy :=
  {| bonusMatchType := bonusMatchType p; bonusMatch := bonusMatch p;
     penMmcType := penMmcType p; penMmc := penMmc p; penSnp := penSnp p;
     penNType := penNType p; penN := penN p; penRdExConst := penRdExConst p;
     penRfExConst := penRfExConst p; penRdExLinear := penRdExLinear p;
     penRfExLinear := penRfExLinear p; costMinConst := costMinConst p;
     costMinLinear := costMinLinear p; costFloorConst := costFloorConst p;
     costFloorLinear := costFloorLinear p; nCeilConst := nCeilConst p;
     nCeilLinear := nCeilLinear p; nCatPair := nCatPair p;
     multiseedMms := multiseedMms p; multiseedLen := multiseedLen p;
     multiseedPeriod := multiseedPeriod p;
     multiseedIvalType := multiseedIvalType p; multiseedIvalA := v;
     multiseedIvalB := multiseedIvalB p; posmin := posmin p;
     posfrac := posfrac p; rowmin := rowmin p; rowmult := rowmult p |}.

Definition set_multiseedIvalB (v : float) (p : Policy) : Policy :=
  {| bonusMatchType := bonusMatchType p; bonusMatch := bonusMatch p;
     penMmcType := penMmcType p; penMmc := penMmc p; penSnp := penSnp p;
     penNType := penNType p; penN := penN p; penRdExConst := penRdExConst p;
     penRfExConst := penRfExConst p; penRdExLinear := penRdExLinear p;
     penRfExLinear := penRfExLinear p; costMinConst := costMinConst p;
     costMinLinear := costMinLinear p; costFloorConst := costFloorConst p;
     costFloorLinear := costFloorLinear p; nCeilConst := nCeilConst p;
     nCeilLinear := nCeilLinear p; nCatPair := nCatPair p;
     multiseedMms := multiseedMms p; multiseedLen := multiseedLen p;
     multiseedPeriod := multiseedPeriod p;
     multiseedIvalType := multiseedIvalType p;
     multiseedIvalA := multiseedIvalA p; multiseedIvalB := v;
     posmin := posmin p; posfrac := posfrac p; rowmin := rowmin p;
     rowmult := rowmult p |}.

Definition set_posmin (v : float) (p : Policy) : Policy :=
  {| bonusMatchType := bonusMatchType p; bonusMatch := bonusMatch p;
     penMmcType := penMmcType p; penMmc := penMmc p; penSnp := penSnp p;
     penNType := penNType p; penN := penN p; penRdExConst := penRdExConst p;
     penRfExConst := penRfExConst p; penRdExLinear := penRdExLinear p;
     penRfExLinear := penRfExLinear p; costMinConst := costMinConst p;
     costMinLinear := costMinLinear p; costFloorConst := costFloorConst p;
     costFloorLinear := costFloorLinear p; nCeilConst := nCeilConst p;
     nCeilLinear := nCeilLinear p; nCatPair := nCatPair p;
     multiseedMms := multiseedMms p; multiseedLen := multiseedLen p;
     multiseedPeriod := multiseedPeriod p;
     multiseedIvalType := multiseedIvalType p;
     multiseedIvalA := multiseedIvalA p; multiseedIvalB := multiseedIvalB p;
     posmin := v; posfrac := posfrac p; rowmin := rowmin p;
     rowmult := rowmult p |}.

Definition set_posfrac (v : float) (p : Policy) : Policy :=
  {| bonusMatchType := bonusMatchType p; bonusMatch := bonusMatch p;
     penMmcType := penMmcType p; penMmc := penMmc p; penSnp := penSnp p;
     penNType := penNType p; penN := penN p; penRdExConst := penRdExConst p;
     penRfExConst := penRfExConst p; penRdExLinear := penRdExLinear p;
     penRfExLinear := penRfExLinear p; costMinConst := costMinConst p;
     costMinLinear := costMinLinear p; costFloorConst := costFloorConst p;
     costFloorLinear := costFloorLinear p; nCeilConst := nCeilConst p;
     nCeilLinear := nCeilLinear p; nCatPair := nCatPair p;
     multiseedMms := multiseedMms p; multiseedLen := multiseedLen p;
     multiseedPeriod := multiseedPeriod p;
     multiseedIvalType := multiseedIvalType p;
     multiseedIvalA := multiseedIvalA p; multiseedIvalB := multiseedIvalB p;
     posmin := posmin p; posfrac := v; rowmin := rowmin p;
     rowmult := rowmult p |}.

Definition set_rowmin (v : float) (p : Policy) : Policy :=
  {| bonusMatchType := bonusMatchType p; bonusMatch := bonusMatch p;
     penMmcType := penMmcType p; penMmc := penMmc p; penSnp := penSnp p;
     penNType := penNType p; penN := penN p; penRdExConst := penRdExConst p;
     penRfExConst := penRfExConst p; penRdExLinear := penRdExLinear p;
     penRfExLinear := penRfExLinear p; costMinConst := costMinConst p;
     costMinLinear := costMinLinear p; costFloorConst := costFloorConst p;
     costFloorLinear := costFloorLinear p; nCeilConst := nCeilConst p;
     nCeilLinear := nCeilLinear p; nCatPair := nCatPair p;
     multiseedMms := multiseedMms p; multiseedLen := multiseedLen p;
     multiseedPeriod := multiseedPeriod p;
     multiseedIvalType := multiseedIvalType p;
     multiseedIvalA := multiseedIvalA p; multiseedIvalB := multiseedIvalB p;
     posmin := posmin p; posfrac := posfrac p; rowmin := v;
     rowmult := rowmult p |}.

Definition set_rowmult (v : float) (p : Policy) : Policy :=
  {| bonusMatchType := bonusMatchType p; bonusMatch := bonusMatch p;
     penMmcType := penMmcType p; penMmc := penMmc p; penSnp := penSnp p;
     penNType := penNType p; penN := penN p; penRdExConst := penRdExConst p;
     penRfExConst := penRfExConst p; penRdExLinear := penRdExLinear p;
     penRfExLinear := penRfExLinear p; costMinConst := costMinConst p;
     costMinLinear := costMinLinear p; costFloorConst := costFloorConst p;
     costFloorLinear := costFloorLinear p; nCeilConst := nCeilConst p;
     nCeilLinear := nCeilLinear p; nCatPair := nCatPair p;
     multiseedMms := multiseedMms p; multiseedLen := multiseedLen p;
     multiseedPeriod := multiseedPeriod p;
     multiseedIvalType := multiseedIvalType p;
     multiseedIvalA := multiseedIvalA p; multiseedIvalB := multiseedIvalB p;
     posmin := posmin p; posfrac := posfrac p; rowmin := rowmin p;
     rowmult := v |}.
(** ** parseString *)

(** Lines 227-271: every output is assigned from the two flags before the
    text is looked at. *)
Definition initial (local noisyHpolymer : bool) : Policy :=
  {| bonusMatchType := if local then DEFAULT_MATCH_BONUS_TYPE_LOCAL D
                       else DEFAULT_MATCH_BONUS_TYPE D;
     bonusMatch := if local then DEFAULT_MATCH_BONUS_LOCAL D
                   else DEFAULT_MATCH_BONUS D;
     penMmcType := DEFAULT_MM_PENALTY_TYPE D;
     penMmc := DEFAULT_MM_PENALTY D;
     penSnp := DEFAULT_SNP_PENALTY D;
     penNType := DEFAULT_N_PENALTY_TYPE D;
     penN := DEFAULT_N_PENALTY D;
     costMinConst := if local then DEFAULT_MIN_CONST_LOCAL D
                     else DEFAULT_MIN_CONST D;
     costMinLinear := if local then DEFAULT_MIN_LINEAR_LOCAL D
                      else DEFAULT_MIN_LINEAR D;
     costFloorConst := if local then DEFAULT_FLOOR_CONST_LOCAL D
                       else DEFAULT_FLOOR_CONST D;
     costFloorLinear := if local then DEFAULT_FLOOR_LINEAR_LOCAL D
                        else DEFAULT_FLOOR_LINEAR D;
     nCeilConst := DEFAULT_N_CEIL_CONST D;
     nCeilLinear := DEFAULT_N_CEIL_LINEAR D;
     nCatPair := DEFAULT_N_CAT_PAIR D;
     penRdExConst := if negb noisyHpolymer then DEFAULT_READ_GAP_CONST D
                     else DEFAULT_READ_GAP_CONST_BADHPOLY D;
     penRdExLinear := if negb noisyHpolymer then DEFAULT_READ_GAP_LINEAR D
                      else DEFAULT_READ_GAP_LINEAR_BADHPOLY D;
     penRfExConst := if negb noisyHpolymer then DEFAULT_REF_GAP_CONST D
                     else DEFAULT_REF_GAP_CONST_BADHPOLY D;
     penRfExLinear := if negb noisyHpolymer then DEFAULT_REF_GAP_LINEAR D
                      else DEFAULT_REF_GAP_LINEAR_BADHPOLY D;
     multiseedMms := DEFAULT_SEEDMMS D;
     multiseedLen := DEFAULT_SEEDLEN D;
     multiseedPeriod := DEFAULT_SEEDPERIOD D;
     multiseedIvalType := DEFAULT_IVAL D;
     multiseedIvalA := DEFAULT_IVAL_A D;
     multiseedIvalB := DEFAULT_IVAL_B D;
     posmin := DEFAULT_POSMIN D;
     posfrac := DEFAULT_POSFRAC D;
     rowmin := DEFAULT_ROWMIN D;
     rowmult := DEFAULT_ROWMULT D |}.

(** Lines 323-626: the cascade on the tag, once the clause is split into
    [tag] and the sub-tokens [ctoks] of its value.  Each [tmpss >> x] is
    the extraction from the sub-token, handed the value the output [x]
    holds at that point, which is what [x] keeps if nothing is stored. *)
Definition applyTag (noisyHpolymer : bool) (setting : nat) (tag : string)
    (ctoks : list string) (p : Policy) : result Policy :=
  let size := List.length ctoks in
  if tag =? "MA" then
    if negb (size =? 1)%nat then Throw (NotOneToken setting)
    else
      let tmp := at_ ctoks 0 in
      Ok (set_bonusMatch (Stream.extract_int tmp (bonusMatch p)) p)
  else if tag =? "SNP" then
    if negb (size =? 1)%nat then Throw (NotOneToken setting)
    else
      let tmp := at_ ctoks 0 in
      Ok (set_penSnp (Stream.extract_int tmp (penSnp p)) p)
  else if tag =? "MMP" then
    if negb (size =? 1)%nat then Throw (NotOneTokenTag tag)
    else if Ascii.eqb (char0 (at_ ctoks 0)) "C" then
      let tmp := substr1 (at_ ctoks 0) in
      let p := set_penMmc (Stream.extract_int tmp (penMmc p)) p in
      Ok (set_penMmcType COST_MODEL_CONSTANT p)
    else if Ascii.eqb (char0 (at_ ctoks 0)) "Q" then
      Ok (set_penMmcType COST_MODEL_QUAL p)
    else if Ascii.eqb (char0 (at_ ctoks 0)) "R" then
      Ok (set_penMmcType COST_MODEL_ROUNDED_QUAL p)
    else Throw (UnrecognizedCostModelPrefix tag)
  else if tag =? "NP" then
    if negb (size =? 1)%nat then Throw (NotOneTokenTag tag)
    else if Ascii.eqb (char0 (at_ ctoks 0)) "C" then
      let tmp := substr1 (at_ ctoks 0) in
      let p := set_penN (Stream.extract_int tmp (penN p)) p in
      Ok (set_penNType COST_MODEL_CONSTANT p)
    else if Ascii.eqb (char0 (at_ ctoks 0)) "Q" then
      Ok (set_penNType COST_MODEL_QUAL p)
    else if Ascii.eqb (char0 (at_ ctoks 0)) "R" then
      Ok (set_penNType COST_MODEL_ROUNDED_QUAL p)
    else Throw (UnrecognizedCostModelPrefix tag)
  else if tag =? "RDG" then
    let p :=
      if (1 <=? size)%nat
      then set_penRdExConst
             (Stream.extract_int (at_ ctoks 0) (penRdExConst p)) p
      else set_penRdExConst
             (if noisyHpolymer then DEFAULT_READ_GAP_CONST_BADHPOLY D
              else DEFAULT_READ_GAP_CONST D) p in
    let p :=
      if (2 <=? size)%nat
      then set_penRdExLinear
             (Stream.extract_int (at_ ctoks 1) (penRdExLinear p)) p
      else set_penRdExLinear
             (if noisyHpolymer then DEFAULT_READ_GAP_LINEAR_BADHPOLY D
              else DEFAULT_READ_GAP_LINEAR D) p in
    Ok p
  else if tag =? "RFG" then
    let p :=
      if (1 <=? size)%nat
      then set_penRfExConst
             (Stream.extract_int (at_ ctoks 0) (penRfExConst p)) p
      else set_penRfExConst
             (if noisyHpolymer then DEFAULT_REF_GAP_CONST_BADHPOLY D
              else DEFAULT_REF_GAP_CONST D) p in
    let p :=
      if (2 <=? size)%nat
      then set_penRfExLinear
             (Stream.extract_int (at_ ctoks 1) (penRfExLinear p)) p
      else set_penRfExLinear
             (if noisyHpolymer then DEFAULT_REF_GAP_LINEAR_BADHPOLY D
              else DEFAULT_REF_GAP_LINEAR D) p in
    Ok p
  else if tag =? "MIN" then
    let p :=
      if (1 <=? size)%nat
      then set_costMinConst
             (extract_float (at_ ctoks 0) (costMinConst p)) p else p in
    let p :=
      if (2 <=? size)%nat
      then set_costMinLinear
             (extract_float (at_ ctoks 1) (costMinLinear p)) p else p in
    Ok p
  else if tag =? "POSF" then
    let p :=
      if (1 <=? size)%nat
      then set_posmin (extract_float (at_ ctoks 0) (posmin p)) p else p in
    let p :=
      if (2 <=? size)%nat
      then set_posfrac (extract_float (at_ ctoks 1) (posfrac p)) p else p in
    Ok p
  else if tag =? "ROWM" then
    let p :=
      if (1 <=? size)%nat
      then set_rowmult (extract_float (at_ ctoks 0) (rowmult p)) p else p in
    let p :=
      if (2 <=? size)%nat
      then set_rowmin (extract_float (at_ ctoks 1) (rowmin p)) p else p in
    Ok p
  else if tag =? "FL" then
    let p :=
      if (1 <=? size)%nat
      then set_costFloorConst
             (extract_float (at_ ctoks 0) (costFloorConst p)) p else p in
    let p :=
      if (2 <=? size)%nat
      then set_costFloorLinear
             (extract_float (at_ ctoks 1) (costFloorLinear p)) p else p in
    Ok p
  else if tag =? "NCEIL" then
    let p :=
      if (1 <=? size)%nat
      then set_nCeilConst
             (extract_float (at_ ctoks 0) (nCeilConst p)) p else p in
    let p :=
      if (2 <=? size)%nat
      then set_nCeilLinear (extract_float (at_ ctoks 1) (nCeilLinear p)) p
      else set_nCeilLinear (DEFAULT_N_CEIL_LINEAR D) p in
    Ok p
  else if tag =? "SEED" then
    let p :=
      if (1 <=? size)%nat
      then set_multiseedMms
             (Stream.extract_int (at_ ctoks 0) (multiseedMms p)) p else p in
    let p :=
      if (2 <=? size)%nat
      then set_multiseedLen
             (Stream.extract_int (at_ ctoks 1) (multiseedLen p)) p
      else set_multiseedLen (DEFAULT_SEEDLEN D) p in
    let p :=
      if (3 <=? size)%nat
      then set_multiseedPeriod
             (Stream.extract_int (at_ ctoks 2) (multiseedPeriod p)) p
      else set_multiseedPeriod (DEFAULT_SEEDPERIOD D) p in
    Ok p
  else if tag =? "IVAL" then
    let p :=
      if (1 <=? size)%nat then
        if Ascii.eqb (char0 (at_ ctoks 0)) "L"
        then set_multiseedIvalType SEED_IVAL_LINEAR p
        else if Ascii.eqb (char0 (at_ ctoks 0)) "S"
        then set_multiseedIvalType SEED_IVAL_SQUARE_ROOT p
        else if Ascii.eqb (char0 (at_ ctoks 0)) "C"
        then set_multiseedIvalType SEED_IVAL_CUBE_ROOT p
        else p
      else p in
    let p :=
      if (2 <=? size)%nat
      then set_multiseedIvalA (extract_float (at_ ctoks 1) (multiseedIvalA p)) p
      else set_multiseedIvalA (float_of_decimal 1) p in
    let p :=
      if (3 <=? size)%nat
      then set_multiseedIvalB (extract_float (at_ ctoks 2) (multiseedIvalB p)) p
      else set_multiseedIvalB (float_of_decimal 0) p in
    Ok p
  else Throw (UnknownTag tag).

(** Lines 279-322 and the cascade: the body of the outer loop for the
    [setting]-th clause [tok]. *)
Definition applySetting (noisyHpolymer : bool) (setting : nat)
    (tok : string) (p : Policy) : result Policy :=
  let etoks := Stream.split "=" tok in
  if negb (List.length etoks =? 2)%nat then Throw (MalformedClause setting)
  else
    let tag := at_ etoks 0 in
    let val := at_ etoks 1 in
    let ctoks := Stream.split "," val in
    if (List.length ctoks =? 0)%nat then Throw (NoToken setting)
    else if (3 <? List.length ctoks)%nat then Throw (TooManyTokens setting)
    else
      match first_empty 0 ctoks with
      | Some i => Throw (EmptyToken setting i)
      | None => applyTag noisyHpolymer setting tag ctoks p
      end.

(** [while(getline(ss, tok, ';')) { setting++; ... }] on the unread text
    [ss]; the first clause that throws ends the parse.  Each iteration
    consumes a character of [ss], so the fuel parseString provides, one
    more than the length of the text, is never used up
    ([parseLoop_fields] below). *)
Fixpoint parseLoop (fuel : nat) (noisyHpolymer : bool) (ss : string)
    (setting : nat) (p : Policy) : result Policy :=
  match fuel with
  | O => Ok p
  | S fuel' =>
      match ss with
      | EmptyString => Ok p
      | String _ _ =>
          let (tok, ss') := Stream.getline ";" ss in
          let setting := S setting in
          bind (applySetting noisyHpolymer setting tok p)
               (parseLoop fuel' noisyHpolymer ss' setting)
      end
  end.

Definition parseString (s : string) (local noisyHpolymer : bool)
    : result Policy :=
  parseLoop (S (String.length s)) noisyHpolymer s 0
    (initial local noisyHpolymer).

(** The outer loop once the text is split into clauses: the clauses are
    applied in order, numbered from [setting] + 1. *)
Fixpoint parseSettings (noisyHpolymer : bool) (toks : list string)
    (setting : nat) (p : Policy) : result Policy :=
  match toks with
  | [] => Ok p
  | tok :: rest =>
      bind (applySetting noisyHpolymer (S setting) tok p)
           (parseSettings noisyHpolymer rest (S setting))
  end.

(** ** Well-formed texts *)

(** A clause of a policy string: not empty and without [;]. *)
Definition is_clause (c : string) : bool :=
  negb (c =? "") && negb (Stream.has ";" c).

(** A sub-token: not empty and without any of the three delimiters. *)
Definition is_token (t : string) : bool :=
  negb (t =? "") && negb (Stream.has "," t) && negb (Stream.has "=" t)
  && negb (Stream.has ";" t).

(** A tag: any text without [=] and [;]. *)
Definition is_tag (t : string) : bool :=
  negb (Stream.has "=" t) && negb (Stream.has ";" t).

(** The clause [tag=tok1,...,tokn] and the policy string [c1;...;cn]. *)
Definition clause_text (tag : string) (toks : list string) : string :=
  tag ++ "=" ++ String.concat "," toks.

Definition policy_text (clauses : list string) : string :=
  String.concat ";" clauses.

(** The tag of a clause: what stands before its first [=]. *)
Definition clause_tag (c : string) : string :=
  at_ (Stream.split "=" c) 0.

(** A clause the parser accepts (in whatever state and position). *)
Definition accepted (noisyHpolymer : bool) (c : string) : bool :=
  is_clause c
  && is_ok (applySetting noisyHpolymer 1 c (initial false noisyHpolymer)).

(** A text of decimal digits, and the number it denotes. *)
Fixpoint all_digits (s : string) : bool :=
  match s with
  | EmptyString => true
  | String c rest =>
      match Stream.digit c with
      | Some _ => all_digits rest
      | None => false
      end
  end.

Definition digits_value (s : string) : Z :=
  fst (fst (Stream.digits s 0%Z 0%nat)).

(** A text that holds a character other than white space. *)
Fixpoint has_text (s : string) : bool :=
  match s with
  | EmptyString => false
  | String c rest => negb (Stream.isspace c) || has_text rest
  end.

(** A text whose first character can neither be skipped as white space nor
    start a number: it is no digit, no sign and not the decimal point. *)
Definition non_numeric (tok : string) : bool :=
  match tok with
  | EmptyString => false
  | String c _ =>
      negb (Stream.isspace c)
      && match Stream.digit c with Some _ => false | None => true end
      && negb (Ascii.eqb c "+") && negb (Ascii.eqb c "-")
      && negb (Ascii.eqb c ".")
  end.

(** ** Notions used to state further properties *)

(** The tags of the cascade, in its order. *)
Definition known_tags : list string :=
  ["MA"; "SNP"; "MMP"; "NP"; "RDG"; "RFG"; "MIN"; "POSF"; "ROWM"; "FL";
   "NCEIL"; "SEED"; "IVAL"].

Definition known_tag (t : string) : bool := existsb (String.eqb t) known_tags.

(** A text between two commas: without any of the three delimiters, and
    possibly empty. *)
Definition is_field (t : string) : bool :=
  negb (Stream.has "," t) && negb (Stream.has "=" t)
  && negb (Stream.has ";" t).

(** The error of a parse that threw. *)
Definition error_of {A : Type} (r : result A) : option Error :=
  match r with
  | Ok _ => None
  | Throw e => Some e
  end.

Definition result_map {A B : Type} (f : A -> B) (r : result A) : result B :=
  match r with
  | Ok a => Ok (f a)
  | Throw e => Throw e
  end.

(** One output of a parse, when it returned. *)
Definition output {A : Type} (f : Policy -> A) (r : result Policy)
    : option A :=
  match r with
  | Ok p => Some (f p)
  | Throw _ => None
  end.

(** A policy with the four gap penalties blanked, and one with the outputs
    that the [local] flag initialises blanked: what is left is what the
    other outputs hold. *)
Definition forget_gaps (p : Policy) : Policy :=
  set_penRdExConst 0 (set_penRdExLinear 0
    (set_penRfExConst 0 (set_penRfExLinear 0 p))).

Definition forget_local (p : Policy) : Policy :=
  {| bonusMatchType := COST_MODEL_CONSTANT; bonusMatch := 0;
     penMmcType := penMmcType p; penMmc := penMmc p; penSnp := penSnp p;
     penNType := penNType p; penN := penN p; penRdExConst := penRdExConst p;
     penRfExConst := penRfExConst p; penRdExLinear := penRdExLinear p;
     penRfExLinear := penRfExLinear p;
     costMinConst := float_of_decimal 0; costMinLinear := float_of_decimal 0;
     costFloorConst := float_of_decimal 0;
     costFloorLinear := float_of_decimal 0;
     nCeilConst := nCeilConst p; nCeilLinear := nCeilLinear p;
     nCatPair := nCatPair p;
     multiseedMms := multiseedMms p; multiseedLen := multiseedLen p;
     multiseedPeriod := multiseedPeriod p;
     multiseedIvalType := multiseedIvalType p;
     multiseedIvalA := multiseedIvalA p; multiseedIvalB := multiseedIvalB p;
     posmin := posmin p; posfrac := posfrac p; rowmin := rowmin p;
     rowmult := rowmult p |}.

Unset Implicit Arguments.

(** ** Facts about the splitting loops *)

Lemma getline_shorter (d : ascii) (c : ascii) (s : string) :
  (String.length (snd (Stream.getline d (String c s))) <= String.length s)%nat.
Proof.
  revert c; induction s as [|c' s IH]; intros c; simpl.
  - destruct (Ascii.eqb c d); simpl; lia.
  - destruct (Ascii.eqb c d); simpl; [lia|].
    specialize (IH c'). simpl in IH.
    destruct (Ascii.eqb c' d); simpl in *; [lia|].
    destruct (Stream.getline d s) as [tok rest]; simpl in *; lia.
Qed.

Lemma fields_getline (d : ascii) (c : ascii) (s : string) :
  Stream.fields d (String c s) =
  fst (Stream.getline d (String c s)) :: Stream.fields d (snd (Stream.getline d (String c s))).
Proof.
  revert c; induction s as [|c' s IH]; intros c.
  - simpl. destruct (Ascii.eqb c d); reflexivity.
  - specialize (IH c').
    change (Stream.fields d (String c (String c' s)))
      with (if Ascii.eqb c d then EmptyString :: Stream.fields d (String c' s)
            else match Stream.fields d (String c' s) with
                 | [] => [String c EmptyString]
                 | f :: fs => String c f :: fs
                 end).
    change (Stream.getline d (String c (String c' s)))
      with (if Ascii.eqb c d then (EmptyString, String c' s)
            else let (tok, rest') := Stream.getline d (String c' s) in
                 (String c tok, rest')).
    destruct (Ascii.eqb c d); [reflexivity|].
    rewrite IH. destruct (Stream.getline d (String c' s)); reflexivity.
Qed.

Lemma getline_loop_fields (d : ascii) (fuel : nat) (s : string) :
  (String.length s < fuel)%nat -> Stream.getline_loop fuel d s = Stream.fields d s.
Proof.
  revert s; induction fuel as [|fuel IH]; intros s Hlt; [lia|].
  destruct s as [|c s]; [reflexivity|].
  rewrite fields_getline.
  pose proof (getline_shorter d c s) as Hs.
  cbn [Stream.getline_loop].
  destruct (Stream.getline d (String c s)) as [tok rest]; simpl in *.
  f_equal. apply IH. lia.
Qed.

Lemma split_fields (d : ascii) (s : string) : Stream.split d s = Stream.fields d s.
Proof. apply getline_loop_fields. lia. Qed.

Lemma fields_free (d : ascii) (s : string) :
  Stream.has d s = false -> s <> EmptyString -> Stream.fields d s = [s].
Proof.
  induction s as [|c s IH]; intros Hh Hne; [congruence|].
  simpl in *. apply orb_false_iff in Hh as [Hc Hs]. rewrite Hc.
  destruct s as [|c' s]; [reflexivity|].
  rewrite IH by (auto; discriminate). reflexivity.
Qed.

Lemma fields_app_delim (d : ascii) (s1 s2 : string) :
  Stream.has d s1 = false ->
  Stream.fields d (s1 ++ String d s2) = s1 :: Stream.fields d s2.
Proof.
  induction s1 as [|c s1 IH]; intros Hh; simpl in *.
  - rewrite Ascii.eqb_refl. reflexivity.
  - apply orb_false_iff in Hh as [Hc Hs]. rewrite Hc, IH by assumption.
    reflexivity.
Qed.

Lemma fields_nonempty (d : ascii) (c : ascii) (s : string) :
  Stream.fields d (String c s) <> [].
Proof. rewrite fields_getline. discriminate. Qed.

(** A text that ends inside a field: it is not empty and its last character
    is not the delimiter.  What follows the next delimiter is then split on
    its own. *)
Lemma fields_app_open (d : ascii) (s t : string) :
  s <> EmptyString -> Stream.last_char s <> d ->
  Stream.fields d (s ++ String d t) = (Stream.fields d s ++ Stream.fields d t)%list.
Proof.
  induction s as [|c s IH]; intros Hne Hl; [congruence|].
  destruct s as [|c' s].
  - simpl in *. destruct (Ascii.eqb_spec c d) as [->|_]; [congruence|].
    rewrite Ascii.eqb_refl. reflexivity.
  - assert (IH' : Stream.fields d (String c' s ++ String d t)
                  = (Stream.fields d (String c' s) ++ Stream.fields d t)%list)
      by (apply IH; [discriminate|exact Hl]).
    change (Stream.fields d (String c (String c' s) ++ String d t))
      with (if Ascii.eqb c d then EmptyString :: Stream.fields d (String c' s ++ String d t)
            else match Stream.fields d (String c' s ++ String d t) with
                 | [] => [String c EmptyString]
                 | f :: fs => String c f :: fs
                 end).
    change (Stream.fields d (String c (String c' s)))
      with (if Ascii.eqb c d then EmptyString :: Stream.fields d (String c' s)
            else match Stream.fields d (String c' s) with
                 | [] => [String c EmptyString]
                 | f :: fs => String c f :: fs
                 end).
    rewrite IH'.
    destruct (Ascii.eqb c d); [reflexivity|].
    pose proof (fields_nonempty d c' s) as Hn.
    destruct (Stream.fields d (String c' s)); [congruence|reflexivity].
Qed.

(** Appending text that holds no delimiter to a text that ends inside a
    field extends the last field, and the last character carries over. *)
Lemma fields_app_last (d : ascii) (s x : string) :
  s <> EmptyString -> Stream.last_char s <> d -> Stream.has d x = false ->
  exists init last,
    Stream.fields d s = (init ++ [last])%list /\
    Stream.fields d (s ++ x) = (init ++ [(last ++ x)%string])%list /\
    last <> EmptyString /\ Stream.last_char last = Stream.last_char s.
Proof.
  induction s as [|c s IH]; intros Hne Hl Hx; [congruence|].
  destruct s as [|c' s].
  - simpl in Hl. exists [], (String c EmptyString).
    assert (Hc : Ascii.eqb c d = false)
      by (destruct (Ascii.eqb_spec c d); congruence).
    repeat split; try discriminate.
    + simpl. rewrite Hc. reflexivity.
    + change (String c EmptyString ++ x) with (String c x).
      destruct x as [|cx x]; [simpl; rewrite Hc; reflexivity|].
      rewrite (fields_free d (String c (String cx x))); [reflexivity| |discriminate].
      simpl in *. rewrite Hc. exact Hx.
  - destruct IH as (init & last & E1 & E2 & E3 & E4);
      [discriminate|exact Hl|exact Hx|].
    change (Stream.fields d (String c (String c' s) ++ x))
      with (if Ascii.eqb c d then EmptyString :: Stream.fields d (String c' s ++ x)
            else match Stream.fields d (String c' s ++ x) with
                 | [] => [String c EmptyString]
                 | f :: fs => String c f :: fs
                 end).
    change (Stream.fields d (String c (String c' s)))
      with (if Ascii.eqb c d then EmptyString :: Stream.fields d (String c' s)
            else match Stream.fields d (String c' s) with
                 | [] => [String c EmptyString]
                 | f :: fs => String c f :: fs
                 end).
    rewrite E1, E2.
    change (Stream.last_char (String c (String c' s))) with (Stream.last_char (String c' s)).
    destruct (Ascii.eqb c d).
    + exists (EmptyString :: init), last. repeat split; auto.
    + destruct init as [|i0 init].
      * exists [], (String c last). repeat split; try discriminate.
        rewrite <- E4. destruct last; [congruence|reflexivity].
      * exists (String c i0 :: init), last. repeat split; auto.
Qed.

(** Between two adjacent delimiters lies an empty field, and it is not the
    first one of the list. *)
Lemma fields_adjacent (d : ascii) (s1 s2 : string) :
  In EmptyString (tl (Stream.fields d (s1 ++ String d (String d s2)))).
Proof.
  induction s1 as [|c s1 IH].
  - simpl. rewrite Ascii.eqb_refl. simpl. now left.
  - simpl. destruct (Ascii.eqb c d).
    + simpl. destruct (Stream.fields d (s1 ++ String d (String d s2))); [destruct IH|].
      right. exact IH.
    + destruct (Stream.fields d (s1 ++ String d (String d s2))); [destruct IH|].
      exact IH.
Qed.


(** ** Facts about the outer loop and about well-formed texts *)

Lemma parseLoop_fields (fuel : nat) (hp : bool) (s : string) (n : nat)
    (p : Policy) :
  (String.length s < fuel)%nat ->
  parseLoop fuel hp s n p = parseSettings hp (Stream.fields ";" s) n p.
Proof.
  revert s n p; induction fuel as [|fuel IH]; intros s n p Hlt; [lia|].
  destruct s as [|c s]; [reflexivity|].
  rewrite fields_getline.
  pose proof (getline_shorter ";" c s) as Hs.
  cbn [parseLoop parseSettings].
  destruct (Stream.getline ";" (String c s)) as [tok rest]; simpl in *.
  destruct (applySetting hp (S n) tok p) as [q|e]; [|reflexivity].
  simpl. apply IH. lia.
Qed.

Lemma parseString_fields (s : string) (local hp : bool) :
  parseString s local hp =
  parseSettings hp (Stream.fields ";" s) 0 (initial local hp).
Proof. apply parseLoop_fields. lia. Qed.

Lemma parseSettings_app (hp : bool) (l1 l2 : list string) (n : nat)
    (p : Policy) :
  parseSettings hp (l1 ++ l2) n p =
  bind (parseSettings hp l1 n p) (parseSettings hp l2 (n + List.length l1)).
Proof.
  revert n p; induction l1 as [|c l1 IH]; intros n p; simpl.
  - now rewrite Nat.add_0_r.
  - destruct (applySetting hp (S n) c p) as [q|e]; [|reflexivity].
    simpl. rewrite IH. now rewrite Nat.add_succ_r.
Qed.

(** Joining texts that hold no delimiter and splitting again gives the
    texts back. *)
Lemma fields_concat (d : ascii) (l : list string) :
  forallb (fun x => negb (x =? "") && negb (Stream.has d x)) l = true ->
  Stream.fields d (String.concat (String d "") l) = l.
Proof.
  induction l as [|x l IH]; intros H; [reflexivity|].
  simpl in H. apply andb_true_iff in H as [Hx Hl].
  apply andb_true_iff in Hx as [Hne Hd].
  apply negb_true_iff in Hne, Hd.
  apply String.eqb_neq in Hne.
  destruct l as [|y l].
  - simpl. now apply fields_free.
  - change (String.concat (String d "") (x :: y :: l))
      with (x ++ String d (String.concat (String d "") (y :: l))).
    rewrite fields_app_delim by assumption.
    now rewrite IH.
Qed.

Lemma has_app (d : ascii) (s t : string) :
  Stream.has d (s ++ t) = Stream.has d s || Stream.has d t.
Proof.
  induction s as [|c s IH]; simpl; [reflexivity|].
  now rewrite IH, orb_assoc.
Qed.

Lemma has_concat (d sep : ascii) (l : list string) :
  Ascii.eqb sep d = false ->
  forallb (fun x => negb (Stream.has d x)) l = true ->
  Stream.has d (String.concat (String sep "") l) = false.
Proof.
  intros Hsep. induction l as [|x l IH]; intros H; [reflexivity|].
  simpl in H. apply andb_true_iff in H as [Hx Hl].
  apply negb_true_iff in Hx.
  destruct l as [|y l]; [exact Hx|].
  change (String.concat (String sep "") (x :: y :: l))
    with (x ++ String sep (String.concat (String sep "") (y :: l))).
  rewrite has_app, Hx. cbn [orb Stream.has]. rewrite Hsep. cbn [orb].
  now apply IH.
Qed.

Lemma forallb_weaken {A : Type} (f g : A -> bool) (l : list A) :
  (forall x, f x = true -> g x = true) ->
  forallb f l = true -> forallb g l = true.
Proof.
  intros Hfg. induction l as [|x l IH]; simpl; [reflexivity|].
  intros H. apply andb_true_iff in H as [Hx Hl].
  now rewrite (Hfg _ Hx), IH.
Qed.

Lemma is_token_parts (t : string) :
  is_token t = true ->
  t <> "" /\ Stream.has "," t = false /\ Stream.has "=" t = false
  /\ Stream.has ";" t = false.
Proof.
  unfold is_token. intros H.
  repeat (apply andb_true_iff in H as [H ?]).
  repeat match goal with
         | X : negb _ = true |- _ => apply negb_true_iff in X
         end.
  apply String.eqb_neq in H. auto.
Qed.

Lemma concat_nonempty (sep : string) (l : list string) :
  l <> [] -> forallb (fun x => negb (x =? "")) l = true ->
  String.concat sep l <> "".
Proof.
  destruct l as [|x l]; [congruence|]. intros _ H.
  simpl in H. apply andb_true_iff in H as [Hx _].
  apply negb_true_iff, String.eqb_neq in Hx.
  destruct x; [congruence|].
  destruct l; simpl; discriminate.
Qed.

Lemma tokens_split (toks : list string) :
  forallb is_token toks = true ->
  Stream.split "," (String.concat "," toks) = toks.
Proof.
  intros H. rewrite split_fields. apply fields_concat.
  revert H. apply forallb_weaken. intros t Ht.
  apply is_token_parts in Ht as (Hne & Hc & _).
  apply String.eqb_neq in Hne. now rewrite Hne, Hc.
Qed.

Lemma clause_split (tag : string) (toks : list string) :
  Stream.has "=" tag = false -> toks <> [] ->
  forallb is_token toks = true ->
  Stream.split "=" (clause_text tag toks) = [tag; String.concat "," toks].
Proof.
  intros Htag Hne H. rewrite split_fields. unfold clause_text.
  change ("=" ++ String.concat "," toks)
    with (String "=" (String.concat "," toks)).
  rewrite fields_app_delim by assumption. f_equal.
  apply fields_free.
  - apply has_concat; [reflexivity|].
    revert H. apply forallb_weaken. intros t Ht.
    apply is_token_parts in Ht as (_ & _ & He & _). now rewrite He.
  - apply concat_nonempty; [assumption|].
    revert H. apply forallb_weaken. intros t Ht.
    apply is_token_parts in Ht as (Hn & _).
    apply String.eqb_neq in Hn. now rewrite Hn.
Qed.

Lemma first_empty_tokens (i : nat) (toks : list string) :
  forallb is_token toks = true -> first_empty i toks = None.
Proof.
  revert i; induction toks as [|t toks IH]; intros i H; [reflexivity|].
  simpl in H. apply andb_true_iff in H as [Ht Hl].
  apply is_token_parts in Ht as (Hne & _).
  simpl. destruct t; [congruence|]. simpl. now apply IH.
Qed.

(** The clause [tag=tok1,...,tokn] reaches the cascade with exactly that
    tag and those sub-tokens, unless they are more than three. *)
Lemma applySetting_clause (hp : bool) (n : nat) (tag : string)
    (toks : list string) (p : Policy) :
  Stream.has "=" tag = false -> toks <> [] ->
  forallb is_token toks = true ->
  applySetting hp n (clause_text tag toks) p =
  if (3 <? List.length toks)%nat then Throw (TooManyTokens n)
  else applyTag hp n tag toks p.
Proof.
  intros Htag Hne H. unfold applySetting.
  rewrite clause_split by assumption.
  cbn [List.length Nat.eqb negb at_ nth].
  rewrite tokens_split by assumption.
  destruct toks as [|t toks]; [congruence|].
  cbn [List.length Nat.eqb].
  destruct (3 <? S (List.length toks))%nat; [reflexivity|].
  now rewrite first_empty_tokens.
Qed.

Lemma is_clause_text (tag : string) (toks : list string) :
  is_tag tag = true -> forallb is_token toks = true ->
  is_clause (clause_text tag toks) = true.
Proof.
  unfold is_tag, is_clause, clause_text. intros Ht H.
  apply andb_true_iff in Ht as [_ Hs]. apply negb_true_iff in Hs.
  apply andb_true_iff; split; apply negb_true_iff.
  - apply String.eqb_neq. destruct tag; discriminate.
  - rewrite has_app, Hs. simpl. apply has_concat; [reflexivity|].
    revert H. apply forallb_weaken. intros t Hx.
    apply is_token_parts in Hx as (_ & _ & _ & Hx). now rewrite Hx.
Qed.

Lemma clauses_split (clauses : list string) :
  forallb is_clause clauses = true ->
  Stream.fields ";" (policy_text clauses) = clauses.
Proof. apply fields_concat. Qed.

(** Parsing a policy string of clauses is parsing all but the last and
    then applying the last. *)
Lemma parseString_snoc (local hp : bool) (clauses : list string)
    (c : string) :
  forallb is_clause clauses = true -> is_clause c = true ->
  parseString (policy_text (clauses ++ [c])) local hp =
  bind (parseString (policy_text clauses) local hp)
       (applySetting hp (S (List.length clauses)) c).
Proof.
  intros Hcs Hc. rewrite !parseString_fields.
  rewrite clauses_split
    by (rewrite forallb_app, Hcs; simpl; now rewrite Hc).
  rewrite clauses_split by assumption.
  rewrite parseSettings_app. simpl.
  destruct (parseSettings hp clauses 0 (initial local hp)); [|reflexivity].
  simpl. now destruct (applySetting hp (S (List.length clauses)) c a).
Qed.

(** The same for a last clause given by its tag and sub-tokens. *)
Lemma parseString_snoc_clause (local hp : bool) (clauses : list string)
    (tag : string) (toks : list string) :
  forallb is_clause clauses = true -> is_tag tag = true ->
  toks <> [] -> forallb is_token toks = true ->
  parseString (policy_text (clauses ++ [clause_text tag toks])) local hp =
  bind (parseString (policy_text clauses) local hp)
       (fun p =>
          if (3 <? List.length toks)%nat
          then Throw (TooManyTokens (S (List.length clauses)))
          else applyTag hp (S (List.length clauses)) tag toks p).
Proof.
  intros Hcs Htag Hne Htoks.
  rewrite parseString_snoc by (auto using is_clause_text).
  destruct (parseString (policy_text clauses) local hp) as [p|e];
    [|reflexivity].
  simpl. apply applySetting_clause; auto.
  unfold is_tag in Htag. apply andb_true_iff in Htag as [Ht _].
  now apply negb_true_iff in Ht.
Qed.


(** ** Facts about the cascade on the tag *)

(** Case analysis along the cascade of string comparisons on [t]. *)
Ltac tag_cases t :=
  repeat match goal with
         | |- context [String.eqb t ?k] =>
             let E := fresh "E" in
             destruct (String.eqb t k) eqn:E;
             [apply String.eqb_eq in E; subst t|]
         end.

Ltac split_ifs :=
  repeat match goal with
         | |- context [if ?b then _ else _] => destruct b
         end.

(** Whether the cascade accepts a clause is settled by the tag, the number
    of sub-tokens and the first character of the first one: neither the
    mode, the position, the current values nor the rest of the sub-tokens
    matter. *)
Lemma applyTag_ok_invariant (hp hp' : bool) (n n' : nat) (tag : string)
    (l l' : list string) (p p' : Policy) :
  List.length l = List.length l' ->
  char0 (at_ l 0) = char0 (at_ l' 0) ->
  is_ok (applyTag hp n tag l p) = is_ok (applyTag hp' n' tag l' p').
Proof.
  intros Hl Hc. unfold applyTag. cbv zeta. rewrite <- Hl, <- Hc.
  tag_cases tag; split_ifs; reflexivity.
Qed.

(** Clauses with different tags write different outputs, so applying two
    accepted ones in either order gives the same values. *)
Lemma applyTag_commute (hp : bool) (n1 n2 m1 m2 : nat) (t1 t2 : string)
    (l1 l2 : list string) (p : Policy) :
  t1 <> t2 ->
  is_ok (applyTag hp n1 t1 l1 p) = true ->
  is_ok (applyTag hp m1 t2 l2 p) = true ->
  bind (applyTag hp n1 t1 l1 p) (applyTag hp n2 t2 l2) =
  bind (applyTag hp m1 t2 l2 p) (applyTag hp m2 t1 l1).
Proof.
  intros Hne H1 H2. revert H1 H2. unfold applyTag. cbv zeta.
  tag_cases t1; try discriminate;
    (tag_cases t2; try discriminate; try congruence);
    cbn [String.eqb Ascii.eqb Bool.eqb];
    split_ifs; cbn [is_ok bind]; intros; try discriminate; reflexivity.
Qed.


(** ** Facts about one clause *)

Lemma bind_assoc {A B C : Type} (r : result A) (f : A -> result B)
    (g : B -> result C) :
  bind (bind r f) g = bind r (fun a => bind (f a) g).
Proof. now destruct r. Qed.

Lemma bind_ext {A B : Type} (r : result A) (f g : A -> result B) :
  (forall a, f a = g a) -> bind r f = bind r g.
Proof. intros H. destruct r; simpl; auto. Qed.

(** An accepted clause reaches the cascade with its tag and the sub-tokens
    of its value, whatever the position and the current values. *)
Lemma applySetting_ok_tag (hp : bool) (n : nat) (c : string) (p : Policy) :
  is_ok (applySetting hp n c p) = true ->
  forall n' p',
    applySetting hp n' c p' =
    applyTag hp n' (clause_tag c)
      (Stream.split "," (at_ (Stream.split "=" c) 1)) p'.
Proof.
  unfold applySetting, clause_tag. intros H n' p'.
  destruct (negb (List.length (Stream.split "=" c) =? 2)%nat);
    [discriminate|].
  destruct (List.length (Stream.split "," (at_ (Stream.split "=" c) 1)) =? 0)%nat;
    [discriminate|].
  destruct (3 <? List.length (Stream.split "," (at_ (Stream.split "=" c) 1)))%nat;
    [discriminate|].
  destruct (first_empty 0 (Stream.split "," (at_ (Stream.split "=" c) 1)));
    [discriminate|reflexivity].
Qed.

Lemma applySetting_ok_invariant (hp hp' : bool) (n n' : nat) (c : string)
    (p p' : Policy) :
  is_ok (applySetting hp n c p) = is_ok (applySetting hp' n' c p').
Proof.
  unfold applySetting.
  destruct (negb (List.length (Stream.split "=" c) =? 2)%nat);
    [reflexivity|].
  destruct (List.length (Stream.split "," (at_ (Stream.split "=" c) 1)) =? 0)%nat;
    [reflexivity|].
  destruct (3 <? List.length (Stream.split "," (at_ (Stream.split "=" c) 1)))%nat;
    [reflexivity|].
  destruct (first_empty 0 (Stream.split "," (at_ (Stream.split "=" c) 1)));
    [reflexivity|].
  now apply applyTag_ok_invariant.
Qed.

Lemma applySetting_commute (hp : bool) (n1 n2 m1 m2 : nat) (c1 c2 : string)
    (p : Policy) :
  clause_tag c1 <> clause_tag c2 ->
  is_ok (applySetting hp n1 c1 p) = true ->
  is_ok (applySetting hp m1 c2 p) = true ->
  bind (applySetting hp n1 c1 p) (applySetting hp n2 c2) =
  bind (applySetting hp m1 c2 p) (applySetting hp m2 c1).
Proof.
  intros Hne H1 H2.
  pose proof (applySetting_ok_tag _ _ _ _ H1) as E1.
  pose proof (applySetting_ok_tag _ _ _ _ H2) as E2.
  rewrite (E1 n1 p), (E2 m1 p) in *.
  rewrite (bind_ext _ _ _ (E2 n2)), (bind_ext _ _ _ (E1 m2)).
  now apply applyTag_commute.
Qed.

(** An empty clause is refused. *)
Lemma applySetting_empty (hp : bool) (n : nat) (p : Policy) :
  applySetting hp n "" p = Throw (MalformedClause n).
Proof. reflexivity. Qed.

Lemma parseSettings_empty_clause (hp : bool) (l : list string) (n : nat)
    (p : Policy) :
  In EmptyString l -> is_ok (parseSettings hp l n p) = false.
Proof.
  revert n p; induction l as [|c l IH]; intros n p Hin; [destruct Hin|].
  simpl. destruct Hin as [->|Hin]; [reflexivity|].
  destruct (applySetting hp (S n) c p); simpl; auto.
Qed.

(** A comma at the end of a clause is dropped with the empty sub-token it
    would open, provided it does not follow another comma or the [=]. *)
Lemma applySetting_trailing_comma (hp : bool) (n : nat) (tok : string)
    (p : Policy) :
  tok <> "" -> Stream.last_char tok <> ","%char ->
  Stream.last_char tok <> "="%char ->
  applySetting hp n (tok ++ ",") p = applySetting hp n tok p.
Proof.
  intros Hne Hc He. unfold applySetting. rewrite !split_fields.
  destruct (fields_app_last "=" tok "," Hne He eq_refl)
    as (init & last & E1 & E2 & Hl & Hlc).
  rewrite E1, E2, !length_app. cbn [List.length]. rewrite Nat.add_1_r.
  destruct (negb (S (List.length init) =? 2)%nat) eqn:Hlen; [reflexivity|].
  destruct init as [|tag [|x init]]; try discriminate.
  cbn [app at_ nth].
  change (last ++ ",") with (last ++ String "," "").
  rewrite fields_app_open by congruence.
  cbn [Stream.fields]. now rewrite app_nil_r.
Qed.


(** ** Facts about the extraction of digits *)

Lemma digit_char (c : ascii) (d : Z) :
  Stream.digit c = Some d ->
  (0 <= d <= 9)%Z /\ Stream.isspace c = false /\
  Stream.sign (String c "") = (false, String c "") /\
  Ascii.eqb c "," = false /\ Ascii.eqb c "=" = false /\
  Ascii.eqb c ";" = false.
Proof.
  destruct c as [[] [] [] [] [] [] [] []]; cbv; intros H;
    try discriminate; injection H as <-;
    repeat split; try reflexivity; discriminate.
Qed.

Lemma digits_all (s : string) (acc : Z) (n : nat) :
  all_digits s = true -> (0 <= acc)%Z ->
  exists v, Stream.digits s acc n = (v, (n + String.length s)%nat, "")
            /\ (0 <= v)%Z.
Proof.
  revert acc n; induction s as [|c s IH]; intros acc n Hall Hacc.
  - exists acc. simpl. now rewrite Nat.add_0_r.
  - cbn [all_digits] in Hall. cbn [Stream.digits String.length].
    destruct (Stream.digit c) as [d|] eqn:Hd; [|discriminate].
    apply digit_char in Hd as (Hr & _).
    destruct (IH (10 * acc + d)%Z (S n) Hall ltac:(lia)) as (v & E & Hv).
    exists v. split; [|exact Hv]. rewrite E. f_equal. f_equal. lia.
Qed.

Lemma all_digits_free (s : string) :
  all_digits s = true ->
  Stream.has "," s = false /\ Stream.has "=" s = false /\
  Stream.has ";" s = false.
Proof.
  induction s as [|c s IH]; intros H; [now repeat split|].
  cbn [all_digits] in H.
  destruct (Stream.digit c) as [d|] eqn:Hd; [|discriminate].
  apply digit_char in Hd as (_ & _ & _ & H1 & H2 & H3).
  destruct (IH H) as (I1 & I2 & I3). cbn [Stream.has].
  now rewrite H1, H2, H3, I1, I2, I3.
Qed.

(** White space only: the sentry fails and the old value stays. *)
Lemma skipws_blank (s : string) :
  has_text s = false -> Stream.skipws s = "".
Proof.
  induction s as [|c s IH]; [reflexivity|].
  cbn [has_text Stream.skipws]. destruct (Stream.isspace c); [exact IH|].
  discriminate.
Qed.

Lemma skipws_text (s : string) :
  has_text s = true -> Stream.skipws s <> "".
Proof.
  induction s as [|c s IH]; [discriminate|].
  cbn [has_text Stream.skipws]. destruct (Stream.isspace c); [exact IH|].
  discriminate.
Qed.

Lemma extract_int_blank (tok : string) (old : Z) :
  has_text tok = false -> Stream.extract_int tok old = old.
Proof.
  intros H. unfold Stream.extract_int. now rewrite (skipws_blank _ H).
Qed.

Lemma extract_float_blank (tok : string) (old : float) :
  has_text tok = false -> extract_float tok old = old.
Proof.
  intros H. unfold extract_float. now rewrite (skipws_blank _ H).
Qed.

(** Some text: the sentry succeeds, and what is stored does not depend on
    the old value. *)
Lemma extract_int_text (tok : string) (old old' : Z) :
  has_text tok = true ->
  Stream.extract_int tok old = Stream.extract_int tok old'.
Proof.
  intros H. apply skipws_text in H. unfold Stream.extract_int.
  destruct (Stream.skipws tok); [congruence|reflexivity].
Qed.

Lemma extract_float_text (tok : string) (old old' : float) :
  has_text tok = true -> extract_float tok old = extract_float tok old'.
Proof.
  intros H. apply skipws_text in H. unfold extract_float.
  destruct (Stream.skipws tok); [congruence|reflexivity].
Qed.

(** A literal of value zero with a minus sign is read as the negative
    zero; without the sign as the conversion of 0. *)
Lemma extract_float_negative_zero (old : float) :
  extract_float "-0.0" old = float_negative_zero /\
  extract_float "-0e5" old = float_negative_zero /\
  extract_float "0.0" old = float_of_decimal 0 /\
  extract_float "-" old = float_of_decimal 0.
Proof. repeat split. Qed.

(** A first character that cannot start a number: the extraction fails
    after the sentry and stores zero. *)
Lemma extract_int_non_numeric (tok : string) (old : Z) :
  non_numeric tok = true -> Stream.extract_int tok old = 0%Z.
Proof.
  destruct tok as [|c r]; [discriminate|].
  destruct c as [[] [] [] [] [] [] [] []]; cbv; intros H;
    try discriminate; reflexivity.
Qed.

Lemma extract_float_non_numeric (tok : string) (old : float) :
  non_numeric tok = true -> extract_float tok old = float_of_decimal 0.
Proof.
  destruct tok as [|c r]; [discriminate|].
  destruct c as [[] [] [] [] [] [] [] []]; cbv; intros H;
    try discriminate; reflexivity.
Qed.

(** A text of digits that denotes a value of the [int] range is extracted
    as that value. *)
Lemma extract_int_digits (s : string) (old : Z) :
  all_digits s = true -> s <> "" ->
  (digits_value s <= Stream.INT_MAX)%Z ->
  Stream.extract_int s old = digits_value s.
Proof.
  intros Hall Hne Hmax. unfold Stream.extract_int, digits_value in *.
  destruct s as [|c s]; [congruence|].
  assert (Hc : exists d, Stream.digit c = Some d).
  { cbn [all_digits] in Hall. destruct (Stream.digit c) as [d|]; [|discriminate].
    now exists d. }
  destruct Hc as (d & Hd).
  apply digit_char in Hd as (_ & Hs & Hsn & _).
  assert (Hsk : Stream.skipws (String c s) = String c s)
    by (cbn [Stream.skipws]; now rewrite Hs).
  assert (Hsg : Stream.sign (String c s) = (false, String c s)).
  { unfold Stream.sign in *. destruct c as [[] [] [] [] [] [] [] []];
      try reflexivity; discriminate. }
  rewrite Hsk, Hsg.
  destruct (digits_all (String c s) 0 0 Hall ltac:(lia)) as (v & E & Hv).
  rewrite E in *. cbn [fst String.length Nat.add] in *.
  unfold Stream.INT_MIN. lia.
Qed.

Lemma is_token_digits (c : ascii) (s : string) :
  all_digits s = true ->
  Ascii.eqb c "," = false -> Ascii.eqb c "=" = false ->
  Ascii.eqb c ";" = false ->
  is_token (String c s) = true.
Proof.
  intros H H1 H2 H3. destruct (all_digits_free s H) as (I1 & I2 & I3).
  unfold is_token. simpl. now rewrite H1, H2, H3, I1, I2, I3.
Qed.

(** ** The claims *)

(** Rewriting the parse of a policy string whose last clause is given by
    its tag and sub-tokens. *)
Ltac last_clause Hcs Hp :=
  rewrite parseString_snoc_clause
    by first [exact Hcs | reflexivity | discriminate
             | cbn [forallb]; repeat (rewrite andb_true_iff; split);
               first [assumption | reflexivity]];
  rewrite Hp; cbn [bind List.length Nat.ltb Nat.leb].

(** C1: the empty string leaves every output at the value the two flags
    give it: the match bonus, MIN and FL follow [local] alone, the read
    and reference gap penalties follow [noisyHpolymer] alone, and all the
    others are fixed defaults. *)
Theorem empty_string_gives_defaults (local noisyHpolymer : bool) :
  parseString "" local noisyHpolymer =
  Ok {| bonusMatchType := if local then DEFAULT_MATCH_BONUS_TYPE_LOCAL D
                          else DEFAULT_MATCH_BONUS_TYPE D;
        bonusMatch := if local then DEFAULT_MATCH_BONUS_LOCAL D
                      else DEFAULT_MATCH_BONUS D;
        penMmcType := DEFAULT_MM_PENALTY_TYPE D;
        penMmc := DEFAULT_MM_PENALTY D;
        penSnp := DEFAULT_SNP_PENALTY D;
        penNType := DEFAULT_N_PENALTY_TYPE D;
        penN := DEFAULT_N_PENALTY D;
        penRdExConst := if noisyHpolymer
                        then DEFAULT_READ_GAP_CONST_BADHPOLY D
                        else DEFAULT_READ_GAP_CONST D;
        penRfExConst := if noisyHpolymer
                        then DEFAULT_REF_GAP_CONST_BADHPOLY D
                        else DEFAULT_REF_GAP_CONST D;
        penRdExLinear := if noisyHpolymer
                         then DEFAULT_READ_GAP_LINEAR_BADHPOLY D
                         else DEFAULT_READ_GAP_LINEAR D;
        penRfExLinear := if noisyHpolymer
                         then DEFAULT_REF_GAP_LINEAR_BADHPOLY D
                         else DEFAULT_REF_GAP_LINEAR D;
        costMinConst := if local then DEFAULT_MIN_CONST_LOCAL D
                        else DEFAULT_MIN_CONST D;
        costMinLinear := if local then DEFAULT_MIN_LINEAR_LOCAL D
                         else DEFAULT_MIN_LINEAR D;
        costFloorConst := if local then DEFAULT_FLOOR_CONST_LOCAL D
                          else DEFAULT_FLOOR_CONST D;
        costFloorLinear := if local then DEFAULT_FLOOR_LINEAR_LOCAL D
                           else DEFAULT_FLOOR_LINEAR D;
        nCeilConst := DEFAULT_N_CEIL_CONST D;
        nCeilLinear := DEFAULT_N_CEIL_LINEAR D;
        nCatPair := DEFAULT_N_CAT_PAIR D;
        multiseedMms := DEFAULT_SEEDMMS D;
        multiseedLen := DEFAULT_SEEDLEN D;
        multiseedPeriod := DEFAULT_SEEDPERIOD D;
        multiseedIvalType := DEFAULT_IVAL D;
        multiseedIvalA := DEFAULT_IVAL_A D;
        multiseedIvalB := DEFAULT_IVAL_B D;
        posmin := DEFAULT_POSMIN D;
        posfrac := DEFAULT_POSFRAC D;
        rowmin := DEFAULT_ROWMIN D;
        rowmult := DEFAULT_ROWMULT D |}.
Proof.
  unfold parseString. cbn [String.length parseLoop].
  unfold initial. destruct noisyHpolymer; reflexivity.
Qed.

(** C2: what a clause does to the outputs of the sub-tokens it omits.
    After any policy string that parses to [p]: RDG and RFG with one
    sub-token set the extension penalty to the default of the homopolymer
    mode; NCEIL with one sub-token sets the linear term to its default;
    SEED sets the length and the period it is not given to their defaults;
    MIN, FL, POSF and ROWM with one sub-token change the first output only
    and leave the second as [p] has it.  The sub-tokens that are given go
    through the extraction, which starts from the value [p] has.  The
    policy returned is given first, then each omitted output by itself. *)
Theorem omitted_tokens (local noisyHpolymer : bool) (clauses : list string)
    (p : Policy) (t u : string) :
  forallb is_clause clauses = true ->
  parseString (policy_text clauses) local noisyHpolymer = Ok p ->
  is_token t = true -> is_token u = true ->
  parseString (policy_text (clauses ++ [clause_text "RDG" [t]]))
      local noisyHpolymer =
    Ok (set_penRdExLinear
          (if noisyHpolymer then DEFAULT_READ_GAP_LINEAR_BADHPOLY D
           else DEFAULT_READ_GAP_LINEAR D)
          (set_penRdExConst (Stream.extract_int t (penRdExConst p)) p)) /\
  parseString (policy_text (clauses ++ [clause_text "RFG" [t]]))
      local noisyHpolymer =
    Ok (set_penRfExLinear
          (if noisyHpolymer then DEFAULT_REF_GAP_LINEAR_BADHPOLY D
           else DEFAULT_REF_GAP_LINEAR D)
          (set_penRfExConst (Stream.extract_int t (penRfExConst p)) p)) /\
  parseString (policy_text (clauses ++ [clause_text "NCEIL" [t]]))
      local noisyHpolymer =
    Ok (set_nCeilLinear (DEFAULT_N_CEIL_LINEAR D)
          (set_nCeilConst (extract_float t (nCeilConst p)) p)) /\
  parseString (policy_text (clauses ++ [clause_text "SEED" [t]]))
      local noisyHpolymer =
    Ok (set_multiseedPeriod (DEFAULT_SEEDPERIOD D)
          (set_multiseedLen (DEFAULT_SEEDLEN D)
             (set_multiseedMms (Stream.extract_int t (multiseedMms p)) p))) /\
  parseString (policy_text (clauses ++ [clause_text "SEED" [t; u]]))
      local noisyHpolymer =
    Ok (set_multiseedPeriod (DEFAULT_SEEDPERIOD D)
          (set_multiseedLen (Stream.extract_int u (multiseedLen p))
             (set_multiseedMms (Stream.extract_int t (multiseedMms p)) p))) /\
  parseString (policy_text (clauses ++ [clause_text "MIN" [t]]))
      local noisyHpolymer =
    Ok (set_costMinConst (extract_float t (costMinConst p)) p) /\
  parseString (policy_text (clauses ++ [clause_text "FL" [t]]))
      local noisyHpolymer =
    Ok (set_costFloorConst (extract_float t (costFloorConst p)) p) /\
  parseString (policy_text (clauses ++ [clause_text "POSF" [t]]))
      local noisyHpolymer =
    Ok (set_posmin (extract_float t (posmin p)) p) /\
  parseString (policy_text (clauses ++ [clause_text "ROWM" [t]]))
      local noisyHpolymer =
    Ok (set_rowmult (extract_float t (rowmult p)) p) /\
  output penRdExLinear
    (parseString (policy_text (clauses ++ [clause_text "RDG" [t]]))
       local noisyHpolymer) =
    Some (if noisyHpolymer then DEFAULT_READ_GAP_LINEAR_BADHPOLY D
          else DEFAULT_READ_GAP_LINEAR D) /\
  output penRfExLinear
    (parseString (policy_text (clauses ++ [clause_text "RFG" [t]]))
       local noisyHpolymer) =
    Some (if noisyHpolymer then DEFAULT_REF_GAP_LINEAR_BADHPOLY D
          else DEFAULT_REF_GAP_LINEAR D) /\
  output nCeilLinear
    (parseString (policy_text (clauses ++ [clause_text "NCEIL" [t]]))
       local noisyHpolymer) =
    Some (DEFAULT_N_CEIL_LINEAR D) /\
  output multiseedLen
    (parseString (policy_text (clauses ++ [clause_text "SEED" [t]]))
       local noisyHpolymer) =
    Some (DEFAULT_SEEDLEN D) /\
  output multiseedPeriod
    (parseString (policy_text (clauses ++ [clause_text "SEED" [t]]))
       local noisyHpolymer) =
    Some (DEFAULT_SEEDPERIOD D) /\
  output multiseedPeriod
    (parseString (policy_text (clauses ++ [clause_text "SEED" [t; u]]))
       local noisyHpolymer) =
    Some (DEFAULT_SEEDPERIOD D) /\
  output costMinLinear
    (parseString (policy_text (clauses ++ [clause_text "MIN" [t]]))
       local noisyHpolymer) =
    Some (costMinLinear p) /\
  output costFloorLinear
    (parseString (policy_text (clauses ++ [clause_text "FL" [t]]))
       local noisyHpolymer) =
    Some (costFloorLinear p) /\
  output posfrac
    (parseString (policy_text (clauses ++ [clause_text "POSF" [t]]))
       local noisyHpolymer) =
    Some (posfrac p) /\
  output rowmin
    (parseString (policy_text (clauses ++ [clause_text "ROWM" [t]]))
       local noisyHpolymer) =
    Some (rowmin p).
Proof.
  intros Hcs Hp Ht Hu.
  repeat split; last_clause Hcs Hp; reflexivity.
Qed.

(** C3: the policy string of the parser's own test, in local mode without
    noisy homopolymers. *)
Theorem simple_string_1 :
  parseString "MMP=C44;MA=4;RFG=24,12;FL=8;RDG=2;SNP=10;NP=C4;MIN=7"
      true false =
  Ok {| bonusMatchType := DEFAULT_MATCH_BONUS_TYPE_LOCAL D;
        bonusMatch := 4;
        penMmcType := COST_MODEL_CONSTANT;
        penMmc := 44;
        penSnp := 10;
        penNType := COST_MODEL_CONSTANT;
        penN := 4;
        penRdExConst := 2;
        penRfExConst := 24;
        penRdExLinear := DEFAULT_READ_GAP_LINEAR D;
        penRfExLinear := 12;
        costMinConst := float_of_decimal 7;
        costMinLinear := DEFAULT_MIN_LINEAR_LOCAL D;
        costFloorConst := float_of_decimal 8;
        costFloorLinear := DEFAULT_FLOOR_LINEAR_LOCAL D;
        nCeilConst := DEFAULT_N_CEIL_CONST D;
        nCeilLinear := DEFAULT_N_CEIL_LINEAR D;
        nCatPair := DEFAULT_N_CAT_PAIR D;
        multiseedMms := DEFAULT_SEEDMMS D;
        multiseedLen := DEFAULT_SEEDLEN D;
        multiseedPeriod := DEFAULT_SEEDPERIOD D;
        multiseedIvalType := DEFAULT_IVAL D;
        multiseedIvalA := DEFAULT_IVAL_A D;
        multiseedIvalB := DEFAULT_IVAL_B D;
        posmin := DEFAULT_POSMIN D;
        posfrac := DEFAULT_POSFRAC D;
        rowmin := DEFAULT_ROWMIN D;
        rowmult := DEFAULT_ROWMULT D |}.
Proof.
  rewrite parseString_fields.
  change (Stream.fields ";"
            "MMP=C44;MA=4;RFG=24,12;FL=8;RDG=2;SNP=10;NP=C4;MIN=7")
    with ["MMP=C44"; "MA=4"; "RFG=24,12"; "FL=8"; "RDG=2"; "SNP=10";
          "NP=C4"; "MIN=7"].
  vm_compute. reflexivity.
Qed.


(** C4 (as the code has it): no sub-token is checked for being a number.
    After any policy string that parses to [p], the clauses MA=tok,
    SNP=tok and MIN=tok are accepted for every sub-token [tok].  When
    [tok] starts with a character that cannot start a number (as in
    MA=abc) the output is set to 0; when [tok] is white space only,
    nothing is stored and the parse returns [p] as it is.  And for every
    tag, replacing the sub-tokens of a clause by as many others, the first
    one with the same first character, never changes whether the policy
    string is accepted. *)
Theorem numeric_tokens_unchecked (local noisyHpolymer : bool)
    (clauses : list string) (p : Policy) (tok : string)
    (tag : string) (toks toks' : list string) :
  forallb is_clause clauses = true ->
  parseString (policy_text clauses) local noisyHpolymer = Ok p ->
  is_token tok = true ->
  is_tag tag = true -> toks <> [] ->
  forallb is_token toks = true -> forallb is_token toks' = true ->
  List.length toks = List.length toks' ->
  char0 (at_ toks 0) = char0 (at_ toks' 0) ->
  (is_ok (parseString (policy_text (clauses ++ [clause_text "MA" [tok]]))
            local noisyHpolymer) = true /\
   is_ok (parseString (policy_text (clauses ++ [clause_text "SNP" [tok]]))
            local noisyHpolymer) = true /\
   is_ok (parseString (policy_text (clauses ++ [clause_text "MIN" [tok]]))
            local noisyHpolymer) = true) /\
  (non_numeric tok = true ->
   parseString (policy_text (clauses ++ [clause_text "MA" [tok]]))
       local noisyHpolymer =
     Ok (set_bonusMatch 0 p) /\
   parseString (policy_text (clauses ++ [clause_text "SNP" [tok]]))
       local noisyHpolymer =
     Ok (set_penSnp 0 p) /\
   parseString (policy_text (clauses ++ [clause_text "MIN" [tok]]))
       local noisyHpolymer =
     Ok (set_costMinConst (float_of_decimal 0) p) /\
   output bonusMatch
     (parseString (policy_text (clauses ++ [clause_text "MA" [tok]]))
        local noisyHpolymer) = Some 0%Z /\
   output penSnp
     (parseString (policy_text (clauses ++ [clause_text "SNP" [tok]]))
        local noisyHpolymer) = Some 0%Z /\
   output costMinConst
     (parseString (policy_text (clauses ++ [clause_text "MIN" [tok]]))
        local noisyHpolymer) = Some (float_of_decimal 0)) /\
  (has_text tok = false ->
   parseString (policy_text (clauses ++ [clause_text "MA" [tok]]))
       local noisyHpolymer = Ok p /\
   parseString (policy_text (clauses ++ [clause_text "SNP" [tok]]))
       local noisyHpolymer = Ok p /\
   parseString (policy_text (clauses ++ [clause_text "MIN" [tok]]))
       local noisyHpolymer = Ok p) /\
  is_ok (parseString (policy_text (clauses ++ [clause_text tag toks]))
           local noisyHpolymer) =
  is_ok (parseString (policy_text (clauses ++ [clause_text tag toks']))
           local noisyHpolymer).
Proof.
  intros Hcs Hp Ht Htag Hne Htoks Htoks' Hlen Hc.
  assert (Hne' : toks' <> [])
    by (destruct toks, toks'; try discriminate; congruence).
  split; [|split; [|split; [|]]].
  - repeat split; last_clause Hcs Hp; reflexivity.
  - intros Hn. repeat split; last_clause Hcs Hp; unfold applyTag;
      cbn [String.eqb Ascii.eqb Bool.eqb List.length Nat.eqb Nat.leb negb
           at_ nth];
      rewrite ?extract_int_non_numeric, ?extract_float_non_numeric
        by assumption;
      reflexivity.
  - intros Hb. repeat split; last_clause Hcs Hp; unfold applyTag;
      cbn [String.eqb Ascii.eqb Bool.eqb List.length Nat.eqb Nat.leb negb
           at_ nth];
      rewrite ?extract_int_blank, ?extract_float_blank by assumption;
      destruct p; reflexivity.
  - rewrite !parseString_snoc_clause by assumption.
    rewrite Hp. cbn [bind]. rewrite <- Hlen.
    destruct (3 <? List.length toks)%nat; [reflexivity|].
    now apply applyTag_ok_invariant.
Qed.

(** C5 (the code at the failing inputs): the clause is split by getline,
    which opens no field after a final [=]; so the clause MA=3= has two
    fields and is accepted like MA=3, and the clause A= has one field and
    is refused as not bisected. *)
Theorem equals_sign_count (local noisyHpolymer : bool) :
  parseString "MA=3=" local noisyHpolymer =
    Ok (set_bonusMatch 3 (initial local noisyHpolymer)) /\
  parseString "A=" local noisyHpolymer = Throw (MalformedClause 1) /\
  parseString "MA=3" local noisyHpolymer =
    Ok (set_bonusMatch 3 (initial local noisyHpolymer)).
Proof. repeat split. Qed.

(** C6: MMP and NP dispatch on the first character of their sub-token.
    After any policy string that parses to [p]: C followed by digits, at
    least one, (of a value in the [int] range) selects the constant model
    with that value; Q and R select the two quality models; a sub-token
    that starts with any other character ends the parse with the error
    "RHS must start with C, Q or R".  A bare C selects the constant model
    too, and the penalty stays the one of [p].  The policy returned is
    given first, then the model and the penalty by themselves. *)
Theorem cost_model_prefix (local noisyHpolymer : bool)
    (clauses : list string) (p : Policy) (ds qs rs tok : string) :
  forallb is_clause clauses = true ->
  parseString (policy_text clauses) local noisyHpolymer = Ok p ->
  all_digits ds = true -> ds <> "" ->
  (digits_value ds <= Stream.INT_MAX)%Z ->
  is_token (String "Q" qs) = true -> is_token (String "R" rs) = true ->
  is_token tok = true ->
  char0 tok <> "C"%char -> char0 tok <> "Q"%char -> char0 tok <> "R"%char ->
  parseString (policy_text (clauses ++ [clause_text "MMP" [String "C" ds]]))
      local noisyHpolymer =
    Ok (set_penMmcType COST_MODEL_CONSTANT
          (set_penMmc (digits_value ds) p)) /\
  parseString (policy_text (clauses ++ [clause_text "MMP" [String "Q" qs]]))
      local noisyHpolymer =
    Ok (set_penMmcType COST_MODEL_QUAL p) /\
  parseString (policy_text (clauses ++ [clause_text "MMP" [String "R" rs]]))
      local noisyHpolymer =
    Ok (set_penMmcType COST_MODEL_ROUNDED_QUAL p) /\
  parseString (policy_text (clauses ++ [clause_text "MMP" [tok]]))
      local noisyHpolymer =
    Throw (UnrecognizedCostModelPrefix "MMP") /\
  parseString (policy_text (clauses ++ [clause_text "NP" [String "C" ds]]))
      local noisyHpolymer =
    Ok (set_penNType COST_MODEL_CONSTANT
          (set_penN (digits_value ds) p)) /\
  parseString (policy_text (clauses ++ [clause_text "NP" [String "Q" qs]]))
      local noisyHpolymer =
    Ok (set_penNType COST_MODEL_QUAL p) /\
  parseString (policy_text (clauses ++ [clause_text "NP" [String "R" rs]]))
      local noisyHpolymer =
    Ok (set_penNType COST_MODEL_ROUNDED_QUAL p) /\
  parseString (policy_text (clauses ++ [clause_text "NP" [tok]]))
      local noisyHpolymer =
    Throw (UnrecognizedCostModelPrefix "NP") /\
  parseString (policy_text (clauses ++ [clause_text "MMP" ["C"]]))
      local noisyHpolymer =
    Ok (set_penMmcType COST_MODEL_CONSTANT p) /\
  parseString (policy_text (clauses ++ [clause_text "NP" ["C"]]))
      local noisyHpolymer =
    Ok (set_penNType COST_MODEL_CONSTANT p) /\
  output (fun q => (penMmcType q, penMmc q))
    (parseString (policy_text (clauses ++ [clause_text "MMP" [String "C" ds]]))
       local noisyHpolymer) =
    Some (COST_MODEL_CONSTANT, digits_value ds) /\
  output (fun q => (penNType q, penN q))
    (parseString (policy_text (clauses ++ [clause_text "NP" [String "C" ds]]))
       local noisyHpolymer) =
    Some (COST_MODEL_CONSTANT, digits_value ds) /\
  output (fun q => (penMmcType q, penMmc q))
    (parseString (policy_text (clauses ++ [clause_text "MMP" [String "Q" qs]]))
       local noisyHpolymer) =
    Some (COST_MODEL_QUAL, penMmc p) /\
  output (fun q => (penMmcType q, penMmc q))
    (parseString (policy_text (clauses ++ [clause_text "MMP" [String "R" rs]]))
       local noisyHpolymer) =
    Some (COST_MODEL_ROUNDED_QUAL, penMmc p) /\
  output (fun q => (penNType q, penN q))
    (parseString (policy_text (clauses ++ [clause_text "NP" [String "Q" qs]]))
       local noisyHpolymer) =
    Some (COST_MODEL_QUAL, penN p) /\
  output (fun q => (penNType q, penN q))
    (parseString (policy_text (clauses ++ [clause_text "NP" [String "R" rs]]))
       local noisyHpolymer) =
    Some (COST_MODEL_ROUNDED_QUAL, penN p) /\
  output (fun q => (penMmcType q, penMmc q))
    (parseString (policy_text (clauses ++ [clause_text "MMP" ["C"]]))
       local noisyHpolymer) =
    Some (COST_MODEL_CONSTANT, penMmc p) /\
  output (fun q => (penNType q, penN q))
    (parseString (policy_text (clauses ++ [clause_text "NP" ["C"]]))
       local noisyHpolymer) =
    Some (COST_MODEL_CONSTANT, penN p).
Proof.
  intros Hcs Hp Hds Hdn Hmax Hq Hr Ht HC HQ HR.
  assert (Hc : is_token (String "C" ds) = true)
    by (now apply is_token_digits).
  apply Ascii.eqb_neq in HC, HQ, HR.
  repeat split; last_clause Hcs Hp; unfold applyTag;
    cbn [String.eqb Ascii.eqb Bool.eqb List.length Nat.eqb negb at_ nth
         char0 substr1];
    rewrite ?HC, ?HQ, ?HR, ?extract_int_digits by assumption;
    reflexivity.
Qed.

(** C7 (the code at the failing input): IVAL compares the first character
    of its first sub-token with L, S and C and has no branch for any
    other character; the clause IVAL=X,2,3 is accepted, the interval
    function stays the one resolved before and the two coefficients are
    stored.  With a known letter the function is set, and the coefficients
    that are not given become 1.0 and 0.0. *)
Theorem ival_letter_unchecked (local noisyHpolymer : bool) :
  parseString "IVAL=X,2,3" local noisyHpolymer =
    Ok (set_multiseedIvalB (float_of_decimal 3)
          (set_multiseedIvalA (float_of_decimal 2)
             (initial local noisyHpolymer))) /\
  parseString "IVAL=L;IVAL=X" local noisyHpolymer =
    Ok (set_multiseedIvalB (float_of_decimal 0)
          (set_multiseedIvalA (float_of_decimal 1)
             (set_multiseedIvalType SEED_IVAL_LINEAR
                (initial local noisyHpolymer)))) /\
  parseString "IVAL=C,2" local noisyHpolymer =
    Ok (set_multiseedIvalB (float_of_decimal 0)
          (set_multiseedIvalA (float_of_decimal 2)
             (set_multiseedIvalType SEED_IVAL_CUBE_ROOT
                (initial local noisyHpolymer)))).
Proof. repeat split. Qed.

(** C8 (as the code has it): the only bound on the number of sub-tokens of
    RDG, RFG, MIN, FL, NCEIL, POSF and ROWM is the general one, at most
    three.  After any policy string that parses to [p], each of them is
    accepted with three sub-tokens and does what it does with the first
    two, each written through the extraction starting from the value of
    [p]; with more than three sub-tokens any clause is refused. *)
Theorem third_token_ignored (local noisyHpolymer : bool)
    (clauses : list string) (p : Policy) (t1 t2 t3 : string)
    (tag : string) (toks : list string) :
  forallb is_clause clauses = true ->
  parseString (policy_text clauses) local noisyHpolymer = Ok p ->
  is_token t1 = true -> is_token t2 = true -> is_token t3 = true ->
  is_tag tag = true -> forallb is_token toks = true ->
  (3 < List.length toks)%nat ->
  (parseString (policy_text (clauses ++ [clause_text "RDG" [t1; t2; t3]]))
       local noisyHpolymer =
     Ok (set_penRdExLinear (Stream.extract_int t2 (penRdExLinear p))
           (set_penRdExConst (Stream.extract_int t1 (penRdExConst p)) p)) /\
   parseString (policy_text (clauses ++ [clause_text "RDG" [t1; t2]]))
       local noisyHpolymer =
     Ok (set_penRdExLinear (Stream.extract_int t2 (penRdExLinear p))
           (set_penRdExConst (Stream.extract_int t1 (penRdExConst p)) p))) /\
  (parseString (policy_text (clauses ++ [clause_text "RFG" [t1; t2; t3]]))
       local noisyHpolymer =
     Ok (set_penRfExLinear (Stream.extract_int t2 (penRfExLinear p))
           (set_penRfExConst (Stream.extract_int t1 (penRfExConst p)) p)) /\
   parseString (policy_text (clauses ++ [clause_text "RFG" [t1; t2]]))
       local noisyHpolymer =
     Ok (set_penRfExLinear (Stream.extract_int t2 (penRfExLinear p))
           (set_penRfExConst (Stream.extract_int t1 (penRfExConst p)) p))) /\
  (parseString (policy_text (clauses ++ [clause_text "MIN" [t1; t2; t3]]))
       local noisyHpolymer =
     Ok (set_costMinLinear (extract_float t2 (costMinLinear p))
           (set_costMinConst (extract_float t1 (costMinConst p)) p)) /\
   parseString (policy_text (clauses ++ [clause_text "MIN" [t1; t2]]))
       local noisyHpolymer =
     Ok (set_costMinLinear (extract_float t2 (costMinLinear p))
           (set_costMinConst (extract_float t1 (costMinConst p)) p))) /\
  (parseString (policy_text (clauses ++ [clause_text "FL" [t1; t2; t3]]))
       local noisyHpolymer =
     Ok (set_costFloorLinear (extract_float t2 (costFloorLinear p))
           (set_costFloorConst (extract_float t1 (costFloorConst p)) p)) /\
   parseString (policy_text (clauses ++ [clause_text "FL" [t1; t2]]))
       local noisyHpolymer =
     Ok (set_costFloorLinear (extract_float t2 (costFloorLinear p))
           (set_costFloorConst (extract_float t1 (costFloorConst p)) p))) /\
  (parseString (policy_text (clauses ++ [clause_text "NCEIL" [t1; t2; t3]]))
       local noisyHpolymer =
     Ok (set_nCeilLinear (extract_float t2 (nCeilLinear p))
           (set_nCeilConst (extract_float t1 (nCeilConst p)) p)) /\
   parseString (policy_text (clauses ++ [clause_text "NCEIL" [t1; t2]]))
       local noisyHpolymer =
     Ok (set_nCeilLinear (extract_float t2 (nCeilLinear p))
           (set_nCeilConst (extract_float t1 (nCeilConst p)) p))) /\
  (parseString (policy_text (clauses ++ [clause_text "POSF" [t1; t2; t3]]))
       local noisyHpolymer =
     Ok (set_posfrac (extract_float t2 (posfrac p))
           (set_posmin (extract_float t1 (posmin p)) p)) /\
   parseString (policy_text (clauses ++ [clause_text "POSF" [t1; t2]]))
       local noisyHpolymer =
     Ok (set_posfrac (extract_float t2 (posfrac p))
           (set_posmin (extract_float t1 (posmin p)) p))) /\
  (parseString (policy_text (clauses ++ [clause_text "ROWM" [t1; t2; t3]]))
       local noisyHpolymer =
     Ok (set_rowmin (extract_float t2 (rowmin p))
           (set_rowmult (extract_float t1 (rowmult p)) p)) /\
   parseString (policy_text (clauses ++ [clause_text "ROWM" [t1; t2]]))
       local noisyHpolymer =
     Ok (set_rowmin (extract_float t2 (rowmin p))
           (set_rowmult (extract_float t1 (rowmult p)) p))) /\
  parseString (policy_text (clauses ++ [clause_text tag toks]))
      local noisyHpolymer =
    Throw (TooManyTokens (S (List.length clauses))).
Proof.
  intros Hcs Hp H1 H2 H3 Htag Htoks Hlen.
  assert (Hne : toks <> [])
    by (destruct toks; [inversion Hlen|discriminate]).
  repeat split; try (last_clause Hcs Hp; reflexivity).
  rewrite parseString_snoc_clause by assumption.
  rewrite Hp. cbn [bind].
  apply Nat.ltb_lt in Hlen. now rewrite Hlen.
Qed.

(** C9: two accepted clauses with different tags can be exchanged.
    Wherever they stand next to each other in a policy string, the parse
    gives the same result for either order; and the string made of the
    two alone parses to a policy. *)
Theorem distinct_tags_commute (local noisyHpolymer : bool)
    (before after : list string) (c1 c2 : string) :
  accepted noisyHpolymer c1 = true ->
  accepted noisyHpolymer c2 = true ->
  clause_tag c1 <> clause_tag c2 ->
  forallb is_clause before = true -> forallb is_clause after = true ->
  parseString (policy_text (before ++ c1 :: c2 :: after))
      local noisyHpolymer =
  parseString (policy_text (before ++ c2 :: c1 :: after))
      local noisyHpolymer /\
  parseString (policy_text [c1; c2]) local noisyHpolymer =
  parseString (policy_text [c2; c1]) local noisyHpolymer /\
  is_ok (parseString (policy_text [c1; c2]) local noisyHpolymer) = true.
Proof.
  intros A1 A2 Hne Hb Ha.
  unfold accepted in A1, A2.
  apply andb_true_iff in A1 as [C1 O1], A2 as [C2 O2].
  assert (Hswap : forall n1 n2 m1 m2 q,
             bind (applySetting noisyHpolymer n1 c1 q)
                  (applySetting noisyHpolymer n2 c2) =
             bind (applySetting noisyHpolymer m1 c2 q)
                  (applySetting noisyHpolymer m2 c1)).
  { intros. apply applySetting_commute; [exact Hne| |].
    - now rewrite (applySetting_ok_invariant _ noisyHpolymer _ 1 _ _
                     (initial false noisyHpolymer)).
    - now rewrite (applySetting_ok_invariant _ noisyHpolymer _ 1 _ _
                     (initial false noisyHpolymer)). }
  assert (Hgen : forall l1 l2 : list string,
             forallb is_clause l1 = true -> forallb is_clause l2 = true ->
             parseString (policy_text (l1 ++ c1 :: c2 :: l2))
                 local noisyHpolymer =
             parseString (policy_text (l1 ++ c2 :: c1 :: l2))
                 local noisyHpolymer).
  { intros l1 l2 H1 H2. rewrite !parseString_fields.
    rewrite !clauses_split
      by (rewrite forallb_app, H1; cbn [forallb]; now rewrite C1, C2, H2).
    rewrite !parseSettings_app.
    apply bind_ext. intros q. cbn [parseSettings].
    rewrite <- !bind_assoc. f_equal. apply Hswap. }
  split; [now apply Hgen|].
  split; [exact (Hgen [] [] eq_refl eq_refl)|].
  rewrite parseString_fields.
  rewrite clauses_split by (cbn [forallb]; now rewrite C1, C2).
  cbn [parseSettings].
  destruct (applySetting noisyHpolymer 1 c1 (initial local noisyHpolymer))
    as [q|e] eqn:E1.
  - cbn [bind].
    destruct (applySetting noisyHpolymer 2 c2 q) as [q'|e] eqn:E2;
      [reflexivity|].
    pose proof (applySetting_ok_invariant noisyHpolymer noisyHpolymer 2 1
                  c2 q (initial false noisyHpolymer)) as Hinv.
    rewrite E2, O2 in Hinv. discriminate.
  - pose proof (applySetting_ok_invariant noisyHpolymer noisyHpolymer 1 1
                  c1 (initial local noisyHpolymer)
                  (initial false noisyHpolymer)) as Hinv.
    rewrite E1, O1 in Hinv. discriminate.
Qed.

(** C10: a [;] after the last clause and a [,] after the last sub-token
    of a clause, wherever the clause stands, open no empty clause or
    sub-token and change nothing, for any text that does not already end
    with the delimiter (or, for the comma, with [=]); an empty clause
    between two adjacent [;] or before a leading [;] ends the parse with
    an error. *)
Theorem trailing_delimiters (local noisyHpolymer : bool) (s tok : string)
    (n : nat) (p : Policy) (before after : list string) (s1 s2 : string) :
  s <> "" -> Stream.last_char s <> ";"%char ->
  tok <> "" -> Stream.last_char tok <> ","%char ->
  Stream.last_char tok <> "="%char ->
  parseString (s ++ ";") local noisyHpolymer =
    parseString s local noisyHpolymer /\
  applySetting noisyHpolymer n (tok ++ ",") p =
    applySetting noisyHpolymer n tok p /\
  (forallb is_clause (before ++ tok :: after) = true ->
   parseString (policy_text (before ++ (tok ++ ",") :: after))
       local noisyHpolymer =
   parseString (policy_text (before ++ tok :: after))
       local noisyHpolymer) /\
  (parseString "MA=4;" local noisyHpolymer =
     parseString "MA=4" local noisyHpolymer /\
   parseString "MA=4" local noisyHpolymer =
     Ok (set_bonusMatch 4 (initial local noisyHpolymer))) /\
  (parseString "RDG=1," local noisyHpolymer =
     parseString "RDG=1" local noisyHpolymer /\
   parseString "RDG=1" local noisyHpolymer =
     Ok (set_penRdExLinear
           (if noisyHpolymer then DEFAULT_READ_GAP_LINEAR_BADHPOLY D
            else DEFAULT_READ_GAP_LINEAR D)
           (set_penRdExConst 1 (initial local noisyHpolymer)))) /\
  is_ok (parseString (s1 ++ ";;" ++ s2) local noisyHpolymer) = false /\
  parseString (";" ++ s2) local noisyHpolymer = Throw (MalformedClause 1) /\
  parseString "MA=4;;SNP=1" local noisyHpolymer =
    Throw (MalformedClause 2).
Proof.
  intros Hs Hl Ht Hc He.
  split; [|split; [|split; [|split; [|split; [|split; [|split]]]]]].
  - rewrite !parseString_fields.
    change (s ++ ";") with (s ++ String ";" "").
    rewrite fields_app_open by assumption.
    cbn [Stream.fields]. now rewrite app_nil_r.
  - now apply applySetting_trailing_comma.
  - intros Hall. rewrite !parseString_fields.
    rewrite (clauses_split _ Hall).
    rewrite forallb_app in Hall. apply andb_true_iff in Hall as [Hb Hta].
    cbn [forallb] in Hta. apply andb_true_iff in Hta as [Htok Ha].
    assert (Htok' : is_clause (tok ++ ",") = true).
    { unfold is_clause in *. apply andb_true_iff in Htok as [_ Hsemi].
      apply negb_true_iff in Hsemi.
      rewrite has_app, Hsemi. destruct tok; [congruence|reflexivity]. }
    rewrite clauses_split
      by (rewrite forallb_app, Hb; cbn [forallb]; now rewrite Htok', Ha).
    rewrite !parseSettings_app. apply bind_ext. intros q.
    cbn [parseSettings].
    now rewrite applySetting_trailing_comma.
  - split; reflexivity.
  - split; reflexivity.
  - rewrite parseString_fields.
    apply parseSettings_empty_clause.
    change (s1 ++ ";;" ++ s2) with (s1 ++ String ";" (String ";" s2)).
    pose proof (fields_adjacent ";" s1 s2) as Hin.
    destruct (Stream.fields ";" (s1 ++ String ";" (String ";" s2)));
      [destruct Hin|now right].
  - rewrite parseString_fields. reflexivity.
  - reflexivity.
Qed.

(** ** Further properties of parseString *)

(** Joining texts that hold no delimiter, the last one not empty, and
    splitting again gives the texts back, empty ones included. *)
Lemma fields_concat_fields (d : ascii) (l : list string) :
  forallb (fun x => negb (Stream.has d x)) l = true ->
  last l "" <> "" ->
  Stream.fields d (String.concat (String d "") l) = l.
Proof.
  induction l as [|x l IH]; intros H Hlast; [reflexivity|].
  cbn [forallb] in H. apply andb_true_iff in H as [Hx Hl].
  apply negb_true_iff in Hx.
  destruct l as [|y l].
  - cbn [String.concat]. apply fields_free; assumption.
  - change (String.concat (String d "") (x :: y :: l))
      with (x ++ String d (String.concat (String d "") (y :: l))).
    rewrite fields_app_delim by assumption.
    now rewrite IH.
Qed.

Lemma is_field_parts (t : string) :
  is_field t = true ->
  Stream.has "," t = false /\ Stream.has "=" t = false
  /\ Stream.has ";" t = false.
Proof.
  unfold is_field. intros H.
  repeat (apply andb_true_iff in H as [H ?]).
  repeat match goal with
         | X : negb _ = true |- _ => apply negb_true_iff in X
         end.
  auto.
Qed.

Lemma concat_last_nonempty (sep : string) (l : list string) :
  last l "" <> "" -> String.concat sep l <> "".
Proof.
  induction l as [|x l IH]; intros H; [now elim H|].
  destruct l as [|y l]; [exact H|].
  change (String.concat sep (x :: y :: l))
    with (x ++ sep ++ String.concat sep (y :: l)).
  specialize (IH H). intros E.
  destruct x; [|discriminate]. simpl in E.
  destruct sep; [now apply IH|discriminate].
Qed.

(** The clause [tag=f1,...,fn], whose fields may be empty except the last,
    passes the tests on the number of sub-tokens and on their lengths as
    the code makes them. *)
Lemma applySetting_fields (hp : bool) (n : nat) (tag : string)
    (toks : list string) (p : Policy) :
  Stream.has "=" tag = false ->
  forallb is_field toks = true -> last toks "" <> "" ->
  applySetting hp n (clause_text tag toks) p =
  if (3 <? List.length toks)%nat then Throw (TooManyTokens n)
  else match first_empty 0 toks with
       | Some i => Throw (EmptyToken n i)
       | None => applyTag hp n tag toks p
       end.
Proof.
  intros Htag H Hlast. unfold applySetting, clause_text.
  rewrite !split_fields.
  change ("=" ++ String.concat "," toks)
    with (String "=" (String.concat "," toks)).
  rewrite fields_app_delim by assumption.
  rewrite (fields_free "=" (String.concat "," toks)).
  - cbn [List.length Nat.eqb negb at_ nth].
    rewrite fields_concat_fields; [|
      revert H; apply forallb_weaken; intros t Ht;
      apply is_field_parts in Ht as (Hc & _); now rewrite Hc | assumption].
    destruct toks as [|t toks]; [now elim Hlast|].
    reflexivity.
  - apply has_concat; [reflexivity|].
    revert H. apply forallb_weaken. intros t Ht.
    apply is_field_parts in Ht as (_ & He & _). now rewrite He.
  - now apply concat_last_nonempty.
Qed.

Lemma is_clause_fields (tag : string) (toks : list string) :
  is_tag tag = true -> forallb is_field toks = true ->
  is_clause (clause_text tag toks) = true.
Proof.
  unfold is_tag, is_clause, clause_text. intros Ht H.
  apply andb_true_iff in Ht as [_ Hs]. apply negb_true_iff in Hs.
  apply andb_true_iff; split; apply negb_true_iff.
  - apply String.eqb_neq. destruct tag; discriminate.
  - rewrite has_app, Hs. simpl. apply has_concat; [reflexivity|].
    revert H. apply forallb_weaken. intros t Hx.
    apply is_field_parts in Hx as (_ & _ & Hx). now rewrite Hx.
Qed.

Lemma is_tag_no_equals (tag : string) :
  is_tag tag = true -> Stream.has "=" tag = false.
Proof.
  unfold is_tag. intros H. apply andb_true_iff in H as [H _].
  now apply negb_true_iff in H.
Qed.

Lemma known_tag_false (tag : string) :
  known_tag tag = false ->
  forall k, In k known_tags -> (tag =? k) = false.
Proof.
  unfold known_tag. intros H k Hk.
  destruct (tag =? k) eqn:E; [|reflexivity].
  rewrite <- H. symmetry. apply existsb_exists. now exists k.
Qed.

(** The cascade ends in its last branch for a tag that is none of the
    thirteen, whatever the sub-tokens. *)
Lemma applyTag_unknown (hp : bool) (n : nat) (tag : string)
    (toks : list string) (p : Policy) :
  known_tag tag = false -> applyTag hp n tag toks p = Throw (UnknownTag tag).
Proof.
  intros H. pose proof (known_tag_false tag H) as K.
  unfold applyTag. cbv zeta.
  rewrite !K by (cbn [known_tags In]; tauto).
  reflexivity.
Qed.

(** X1: a clause whose tag is not, letter for letter, one of the thirteen
    tags of the cascade ends the parse with the error "Unexpected
    alignment policy setting", whatever its one to three sub-tokens. *)
Theorem unknown_tag_rejected (local noisyHpolymer : bool)
    (clauses : list string) (p : Policy) (tag : string)
    (toks : list string) :
  forallb is_clause clauses = true ->
  parseString (policy_text clauses) local noisyHpolymer = Ok p ->
  is_tag tag = true -> known_tag tag = false ->
  toks <> [] -> forallb is_token toks = true ->
  (List.length toks <= 3)%nat ->
  parseString (policy_text (clauses ++ [clause_text tag toks]))
      local noisyHpolymer =
    Throw (UnknownTag tag).
Proof.
  intros Hcs Hp Htag Hk Hne Htoks Hlen.
  rewrite parseString_snoc_clause by assumption.
  rewrite Hp. cbn [bind].
  assert (E : (3 <? List.length toks)%nat = false)
    by (apply Nat.ltb_ge; exact Hlen).
  rewrite E. now apply applyTag_unknown.
Qed.

(** X2: a sub-token of length 0 before the last one ends the parse with
    the error "token i on RHS had length=0", [i] being the 1-based
    position of the first such sub-token and the setting number the
    position of the clause; this comes before any look at the tag. *)
Theorem empty_token_rejected (local noisyHpolymer : bool)
    (clauses : list string) (p : Policy) (tag : string)
    (toks : list string) (i : nat) :
  forallb is_clause clauses = true ->
  parseString (policy_text clauses) local noisyHpolymer = Ok p ->
  is_tag tag = true ->
  forallb is_field toks = true -> last toks "" <> "" ->
  (List.length toks <= 3)%nat ->
  first_empty 0 toks = Some i ->
  parseString (policy_text (clauses ++ [clause_text tag toks]))
      local noisyHpolymer =
    Throw (EmptyToken (S (List.length clauses)) i).
Proof.
  intros Hcs Hp Htag Htoks Hlast Hlen Hi.
  rewrite parseString_snoc by (auto using is_clause_fields).
  rewrite Hp. cbn [bind].
  rewrite applySetting_fields by (auto using is_tag_no_equals).
  assert (E : (3 <? List.length toks)%nat = false)
    by (apply Nat.ltb_ge; exact Hlen).
  now rewrite E, Hi.
Qed.

(** X3: MA, SNP, MMP and NP take exactly one sub-token: with two or three
    the parse ends with the error "RHS must have 1 token", which names
    the setting number for MA and SNP and the tag for MMP and NP. *)
Theorem one_token_tags (local noisyHpolymer : bool)
    (clauses : list string) (p : Policy) (toks : list string) :
  forallb is_clause clauses = true ->
  parseString (policy_text clauses) local noisyHpolymer = Ok p ->
  forallb is_token toks = true ->
  (1 < List.length toks <= 3)%nat ->
  parseString (policy_text (clauses ++ [clause_text "MA" toks]))
      local noisyHpolymer =
    Throw (NotOneToken (S (List.length clauses))) /\
  parseString (policy_text (clauses ++ [clause_text "SNP" toks]))
      local noisyHpolymer =
    Throw (NotOneToken (S (List.length clauses))) /\
  parseString (policy_text (clauses ++ [clause_text "MMP" toks]))
      local noisyHpolymer =
    Throw (NotOneTokenTag "MMP") /\
  parseString (policy_text (clauses ++ [clause_text "NP" toks]))
      local noisyHpolymer =
    Throw (NotOneTokenTag "NP").
Proof.
  intros Hcs Hp Htoks [Hlo Hhi].
  assert (Hne : toks <> []) by (destruct toks; [inversion Hlo|discriminate]).
  assert (E : (3 <? List.length toks)%nat = false)
    by (apply Nat.ltb_ge; exact Hhi).
  assert (E1 : (List.length toks =? 1)%nat = false)
    by (apply Nat.eqb_neq; lia).
  repeat split;
    (rewrite parseString_snoc_clause by (assumption || reflexivity));
    rewrite Hp; cbn [bind]; rewrite E; unfold applyTag; cbv zeta;
    cbn [String.eqb Ascii.eqb Bool.eqb]; rewrite E1; reflexivity.
Qed.

(** X4: a clause that is not of the shape tag=value.  Without any [=],
    or with a second [=] followed by more text, the error is "must be
    bisected by = sign"; the clause tag== gets past that test and fails
    with "RHS must have at least 1 token".  The setting number is the
    position of the clause. *)
Theorem clause_shape_errors (local noisyHpolymer : bool)
    (clauses : list string) (p : Policy) (c tag val more : string) :
  forallb is_clause clauses = true ->
  parseString (policy_text clauses) local noisyHpolymer = Ok p ->
  is_clause c = true -> Stream.has "=" c = false ->
  is_tag tag = true -> is_token val = true -> is_token more = true ->
  parseString (policy_text (clauses ++ [c])) local noisyHpolymer =
    Throw (MalformedClause (S (List.length clauses))) /\
  parseString (policy_text (clauses ++ [tag ++ "=" ++ val ++ "=" ++ more]))
      local noisyHpolymer =
    Throw (MalformedClause (S (List.length clauses))) /\
  parseString (policy_text (clauses ++ [tag ++ "=="]))
      local noisyHpolymer =
    Throw (NoToken (S (List.length clauses))).
Proof.
  intros Hcs Hp Hc Hce Htag Hval Hmore.
  pose proof (is_tag_no_equals _ Htag) as Hte.
  apply is_token_parts in Hval as (Hvn & _ & Hve & Hvs).
  apply is_token_parts in Hmore as (Hmn & _ & Hme & Hms).
  assert (Hts : Stream.has ";" tag = false).
  { unfold is_tag in Htag. apply andb_true_iff in Htag as [_ H].
    now apply negb_true_iff in H. }
  split; [|split].
  - rewrite parseString_snoc by assumption. rewrite Hp. cbn [bind].
    unfold applySetting. rewrite split_fields, fields_free; [reflexivity|
      assumption|].
    unfold is_clause in Hc. apply andb_true_iff in Hc as [Hc _].
    now apply negb_true_iff, String.eqb_neq in Hc.
  - rewrite parseString_snoc; [|assumption|].
    + rewrite Hp. cbn [bind]. unfold applySetting. rewrite split_fields.
      change (tag ++ "=" ++ val ++ "=" ++ more)
        with (tag ++ String "=" (val ++ String "=" more)).
      rewrite !fields_app_delim by assumption.
      rewrite fields_free by assumption. reflexivity.
    + unfold is_clause. apply andb_true_iff; split; apply negb_true_iff.
      * apply String.eqb_neq. destruct tag; discriminate.
      * rewrite !has_app, Hts, Hvs, Hms. reflexivity.
  - rewrite parseString_snoc; [|assumption|].
    + rewrite Hp. cbn [bind]. unfold applySetting. rewrite split_fields.
      change (tag ++ "==") with (tag ++ String "=" (String "=" "")).
      rewrite fields_app_delim by assumption. reflexivity.
    + unfold is_clause. apply andb_true_iff; split; apply negb_true_iff.
      * apply String.eqb_neq. destruct tag; discriminate.
      * rewrite has_app, Hts. reflexivity.
Qed.

(** X5: the parse stops at the first clause that throws: its error is the
    result whatever clauses follow, well-formed or not. *)
Theorem first_error_wins (local noisyHpolymer : bool)
    (before after : list string) (p : Policy) (c : string) (e : Error) :
  forallb is_clause (before ++ c :: after) = true ->
  parseString (policy_text before) local noisyHpolymer = Ok p ->
  applySetting noisyHpolymer (S (List.length before)) c p = Throw e ->
  parseString (policy_text (before ++ c :: after)) local noisyHpolymer =
    Throw e.
Proof.
  intros Hall Hp He.
  rewrite parseString_fields, (clauses_split _ Hall).
  rewrite forallb_app in Hall. apply andb_true_iff in Hall as [Hb _].
  rewrite parseString_fields, (clauses_split _ Hb) in Hp.
  rewrite parseSettings_app, Hp. cbn [bind parseSettings Nat.add].
  now rewrite He.
Qed.

Lemma parseSettings_ok (hp : bool) (l : list string) (n : nat)
    (p : Policy) :
  is_ok (parseSettings hp l n p) =
  forallb (fun c => is_ok (applySetting hp 1 c (initial false hp))) l.
Proof.
  revert n p; induction l as [|c l IH]; intros n p; [reflexivity|].
  cbn [parseSettings forallb].
  rewrite <- (applySetting_ok_invariant hp hp (S n) 1 c p
                (initial false hp)).
  destruct (applySetting hp (S n) c p) as [q|e]; [|reflexivity].
  cbn [bind is_ok andb]. apply IH.
Qed.

(** X6: a policy string is accepted exactly when each of the clauses that
    the [;] loop cuts out of it is accepted on its own; the clauses before
    it and the flag [local] play no part in that. *)
Theorem accepted_clause_by_clause (s : string)
    (local noisyHpolymer : bool) :
  is_ok (parseString s local noisyHpolymer) =
  forallb
    (fun c => is_ok (applySetting noisyHpolymer 1 c
                       (initial false noisyHpolymer)))
    (Stream.split ";" s).
Proof.
  rewrite parseString_fields, split_fields. apply parseSettings_ok.
Qed.


(** The cascade never assigns the type of the match bonus nor the N
    category flag. *)
Lemma applyTag_keeps (hp : bool) (n : nat) (tag : string)
    (toks : list string) (p q : Policy) :
  applyTag hp n tag toks p = Ok q ->
  bonusMatchType q = bonusMatchType p /\ nCatPair q = nCatPair p.
Proof.
  unfold applyTag. cbv zeta.
  tag_cases tag; split_ifs; intros H; try discriminate;
    injection H as <-; split; reflexivity.
Qed.

Lemma parseSettings_keeps (hp : bool) (l : list string) (n : nat)
    (p q : Policy) :
  parseSettings hp l n p = Ok q ->
  bonusMatchType q = bonusMatchType p /\ nCatPair q = nCatPair p.
Proof.
  revert n p; induction l as [|c l IH]; intros n p H.
  - injection H as <-. now split.
  - cbn [parseSettings] in H.
    destruct (applySetting hp (S n) c p) as [r|e] eqn:E; [|discriminate].
    cbn [bind] in H. apply IH in H as [H1 H2].
    unfold applySetting in E.
    destruct (negb (List.length (Stream.split "=" c) =? 2)%nat);
      [discriminate|].
    destruct (List.length (Stream.split "," (at_ (Stream.split "=" c) 1)) =? 0)%nat;
      [discriminate|].
    destruct (3 <? List.length (Stream.split "," (at_ (Stream.split "=" c) 1)))%nat;
      [discriminate|].
    destruct (first_empty 0 (Stream.split "," (at_ (Stream.split "=" c) 1)));
      [discriminate|].
    apply applyTag_keeps in E as [E1 E2]. split; congruence.
Qed.

(** X7: no policy string changes the type of the match bonus or the N
    category flag: in every policy that a parse returns they are the
    defaults the flags select. *)
Theorem never_assigned_outputs (s : string) (local noisyHpolymer : bool)
    (p : Policy) :
  parseString s local noisyHpolymer = Ok p ->
  bonusMatchType p =
    (if local then DEFAULT_MATCH_BONUS_TYPE_LOCAL D
     else DEFAULT_MATCH_BONUS_TYPE D) /\
  nCatPair p = DEFAULT_N_CAT_PAIR D.
Proof.
  rewrite parseString_fields. intros H.
  apply parseSettings_keeps in H. exact H.
Qed.

(** From one clause to the whole loop: a blanking [f] of some outputs
    that the cascade respects under a change of the homopolymer flag is
    respected by the parse of any list of clauses. *)
Lemma parseSettings_blank (f : Policy -> Policy) (hp hp' : bool) :
  (forall n tag toks p p',
      f p = f p' ->
      result_map f (applyTag hp n tag toks p) =
      result_map f (applyTag hp' n tag toks p')) ->
  forall l n p p',
    f p = f p' ->
    result_map f (parseSettings hp l n p) =
    result_map f (parseSettings hp' l n p').
Proof.
  intros Htag l. induction l as [|c l IH]; intros n p p' Hf.
  - cbn. now rewrite Hf.
  - cbn [parseSettings].
    assert (E : result_map f (applySetting hp (S n) c p) =
                result_map f (applySetting hp' (S n) c p')).
    { unfold applySetting.
      destruct (negb (List.length (Stream.split "=" c) =? 2)%nat);
        [reflexivity|].
      destruct (List.length (Stream.split "," (at_ (Stream.split "=" c) 1)) =? 0)%nat;
        [reflexivity|].
      destruct (3 <? List.length (Stream.split "," (at_ (Stream.split "=" c) 1)))%nat;
        [reflexivity|].
      destruct (first_empty 0 (Stream.split "," (at_ (Stream.split "=" c) 1)));
        [reflexivity|].
      now apply Htag. }
    destruct (applySetting hp (S n) c p) as [q|e],
             (applySetting hp' (S n) c p') as [q'|e'];
      cbn [result_map bind] in *; try discriminate.
    + apply IH. now injection E.
    + exact E.
Qed.

Lemma applyTag_forget_gaps (hp hp' : bool) (n : nat) (tag : string)
    (toks : list string) (p p' : Policy) :
  forget_gaps p = forget_gaps p' ->
  result_map forget_gaps (applyTag hp n tag toks p) =
  result_map forget_gaps (applyTag hp' n tag toks p').
Proof.
  destruct p, p'. unfold forget_gaps. cbn. intros H.
  injection H as -> -> -> -> -> -> -> -> -> -> -> -> -> -> -> -> -> ->
                  -> -> -> -> -> ->.
  unfold applyTag. cbv zeta.
  tag_cases tag; split_ifs; reflexivity.
Qed.

Lemma applyTag_forget_local (hp : bool) (n : nat) (tag : string)
    (toks : list string) (p p' : Policy) :
  forget_local p = forget_local p' ->
  result_map forget_local (applyTag hp n tag toks p) =
  result_map forget_local (applyTag hp n tag toks p').
Proof.
  destruct p, p'. unfold forget_local. cbn. intros H.
  injection H as -> -> -> -> -> -> -> -> -> -> -> -> -> -> -> -> -> ->
                  -> -> -> ->.
  unfold applyTag. cbv zeta.
  tag_cases tag; split_ifs; reflexivity.
Qed.

(** X8: the flag [noisyHpolymer] reaches nothing but the four gap
    penalties: for either value of it the same policy strings are
    accepted, a refused one with the same error, and the two policies
    agree on every other output. *)
Theorem noisyHpolymer_reaches_gaps_only (s : string)
    (local hp hp' : bool) :
  result_map forget_gaps (parseString s local hp) =
  result_map forget_gaps (parseString s local hp').
Proof.
  rewrite !parseString_fields.
  apply parseSettings_blank.
  - intros. now apply applyTag_forget_gaps.
  - destruct hp, hp'; reflexivity.
Qed.

(** X9: the flag [local] reaches nothing but the match bonus and the MIN
    and FL coefficients: for either value of it the same policy strings
    are accepted, a refused one with the same error, and the two policies
    agree on every other output. *)
Theorem local_reaches_bonus_min_floor_only (s : string)
    (local local' noisyHpolymer : bool) :
  result_map forget_local (parseString s local noisyHpolymer) =
  result_map forget_local (parseString s local' noisyHpolymer).
Proof.
  rewrite !parseString_fields.
  apply parseSettings_blank.
  - intros. now apply applyTag_forget_local.
  - reflexivity.
Qed.


(** Bring every extraction from a sub-token known to hold some text to
    the same old value: what it stores does not depend on it. *)
Ltac overwrite_old :=
  repeat match goal with
         | H : has_text ?t = true |- context [Stream.extract_int ?t ?old] =>
             lazymatch old with
             | 0%Z => fail
             | _ => rewrite (extract_int_text t old 0%Z H)
             end
         | H : has_text ?t = true |- context [extract_float ?t ?old] =>
             lazymatch old with
             | float_of_decimal 0 => fail
             | _ => rewrite (extract_float_text t old (float_of_decimal 0) H)
             end
         end.

(** A clause for the same tag with at least as many sub-tokens and the
    same first character, each of whose extractions finds some text and so
    stores a value, writes over everything the earlier one wrote. *)
Lemma applyTag_overwrite (hp : bool) (n1 n2 n3 : nat) (tag : string)
    (l1 l2 : list string) (p : Policy) :
  (List.length l1 <= List.length l2)%nat ->
  char0 (at_ l1 0) = char0 (at_ l2 0) ->
  forallb has_text l2 = true ->
  (tag = "MMP" \/ tag = "NP" ->
   char0 (at_ l2 0) = "C"%char -> has_text (substr1 (at_ l2 0)) = true) ->
  is_ok (applyTag hp n1 tag l1 p) = true ->
  is_ok (applyTag hp n3 tag l2 p) = true ->
  bind (applyTag hp n1 tag l1 p) (applyTag hp n2 tag l2) =
  applyTag hp n3 tag l2 p.
Proof.
  intros Hlen Hc Htxt Hsub. unfold applyTag. cbv zeta. rewrite Hc.
  destruct (Ascii.eqb (char0 (at_ l2 0)) "C") eqn:EC.
  - assert (Hs : tag = "MMP" \/ tag = "NP" ->
                 has_text (substr1 (at_ l2 0)) = true)
      by (intros Ht; apply Hsub; [exact Ht|now apply Ascii.eqb_eq]).
    clear Hsub Hc. revert Hs.
    destruct l1 as [|a1 [|b1 [|c1 l1]]], l2 as [|a2 [|b2 [|c2 l2]]];
      cbn [List.length] in Hlen; try lia;
      cbn [forallb] in Htxt; rewrite ?andb_true_iff in Htxt;
      decompose [and] Htxt; clear Htxt;
      cbn [List.length Nat.leb Nat.eqb negb at_ nth];
      tag_cases tag; split_ifs; cbn [is_ok bind]; intros;
      try discriminate;
      try match goal with
          | Hs : _ \/ _ -> _ |- _ =>
              first [specialize (Hs (or_introl eq_refl))
                    |specialize (Hs (or_intror eq_refl))]
          end;
      overwrite_old; reflexivity.
  - clear Hsub Hc.
    destruct l1 as [|a1 [|b1 [|c1 l1]]], l2 as [|a2 [|b2 [|c2 l2]]];
      cbn [List.length] in Hlen; try lia;
      cbn [forallb] in Htxt; rewrite ?andb_true_iff in Htxt;
      decompose [and] Htxt; clear Htxt;
      cbn [List.length Nat.leb Nat.eqb negb at_ nth];
      tag_cases tag; split_ifs; cbn [is_ok bind]; intros;
      try discriminate; overwrite_old; reflexivity.
Qed.

(** X10: a repeated tag.  When a clause is followed by a clause for the
    same tag that has at least as many sub-tokens, starts with the same
    character, and whose sub-tokens all hold something else than white
    space (for MMP and NP with the letter C: something else than white
    space after the C), the result is that of the later clause alone: the
    later one overwrites, nothing of the earlier one is kept.  In
    particular such a clause given twice counts once.  The condition on
    white space is needed: after MMP=C5 the clause MMP=C stores nothing
    and the penalty stays 5. *)
Theorem later_clause_overwrites (local noisyHpolymer : bool)
    (clauses : list string) (tag : string) (toks1 toks2 : list string) :
  forallb is_clause clauses = true -> is_tag tag = true ->
  toks1 <> [] -> forallb is_token toks1 = true ->
  forallb is_token toks2 = true ->
  (List.length toks1 <= List.length toks2)%nat ->
  char0 (at_ toks1 0) = char0 (at_ toks2 0) ->
  forallb has_text toks2 = true ->
  (tag = "MMP" \/ tag = "NP" ->
   char0 (at_ toks2 0) = "C"%char ->
   has_text (substr1 (at_ toks2 0)) = true) ->
  is_ok (parseString (policy_text (clauses ++ [clause_text tag toks1]))
           local noisyHpolymer) = true ->
  is_ok (parseString (policy_text (clauses ++ [clause_text tag toks2]))
           local noisyHpolymer) = true ->
  parseString
      (policy_text
         (clauses ++ [clause_text tag toks1; clause_text tag toks2]))
      local noisyHpolymer =
    parseString (policy_text (clauses ++ [clause_text tag toks2]))
      local noisyHpolymer /\
  parseString
      (policy_text
         (clauses ++ [clause_text tag toks2; clause_text tag toks2]))
      local noisyHpolymer =
    parseString (policy_text (clauses ++ [clause_text tag toks2]))
      local noisyHpolymer /\
  parseString "MMP=C5;MMP=C" local noisyHpolymer =
    parseString "MMP=C5" local noisyHpolymer.
Proof.
  intros Hcs Htag Hne1 Ht1 Ht2 Hlen Hc Htxt Hsub Hok1 Hok2.
  assert (Hne2 : toks2 <> [])
    by (destruct toks1, toks2; cbn in Hlen; try congruence; lia).
  pose proof (is_tag_no_equals _ Htag) as Hte.
  assert (Hc1 : is_clause (clause_text tag toks1) = true)
    by (now apply is_clause_text).
  assert (Hc2 : is_clause (clause_text tag toks2) = true)
    by (now apply is_clause_text).
  rewrite parseString_snoc_clause in Hok1, Hok2 by assumption.
  assert (Hstep : forall t l, is_clause t = true -> is_clause l = true ->
            parseString (policy_text (clauses ++ [t; l]))
              local noisyHpolymer =
            bind (parseString (policy_text clauses) local noisyHpolymer)
              (fun p => bind (applySetting noisyHpolymer
                                (S (List.length clauses)) t p)
                          (applySetting noisyHpolymer
                             (S (S (List.length clauses))) l))).
  { intros t l Ht Hl.
    change (clauses ++ [t; l])%list with (clauses ++ [t] ++ [l])%list.
    rewrite app_assoc.
    rewrite parseString_snoc
      by (try assumption; rewrite forallb_app, Hcs; cbn; now rewrite Ht).
    rewrite parseString_snoc by assumption.
    rewrite bind_assoc, length_app, Nat.add_1_r. reflexivity. }
  rewrite parseString_snoc_clause by assumption.
  rewrite !Hstep by assumption.
  split; [|split; [|reflexivity]];
    destruct (parseString (policy_text clauses) local noisyHpolymer)
      as [p|e]; try discriminate;
    cbn [bind] in *;
    rewrite !applySetting_clause by assumption.
  - destruct (3 <? List.length toks1)%nat; [discriminate|].
    destruct (3 <? List.length toks2)%nat eqn:E2; [discriminate|].
    erewrite bind_ext
      by (intros q; rewrite applySetting_clause by assumption;
          rewrite E2; reflexivity).
    apply applyTag_overwrite; auto.
  - destruct (3 <? List.length toks2)%nat eqn:E2; [discriminate|].
    erewrite bind_ext
      by (intros q; rewrite applySetting_clause by assumption;
          rewrite E2; reflexivity).
    apply applyTag_overwrite; auto.
Qed.


Lemma extract_int_negative (s : string) (old : Z) :
  all_digits s = true -> s <> "" ->
  (digits_value s <= Stream.INT_MAX)%Z ->
  Stream.extract_int (String "-" s) old = (- digits_value s)%Z.
Proof.
  intros Hall Hne Hmax. unfold Stream.extract_int, digits_value in *.
  change (Stream.skipws (String "-" s)) with (String "-" s).
  cbn [Stream.sign].
  destruct (digits_all s 0 0 Hall ltac:(lia)) as (v & E & Hv).
  rewrite E in *. cbn [fst] in *.
  destruct s as [|c s]; [congruence|].
  cbn [String.length Nat.add]. unfold Stream.INT_MIN, Stream.INT_MAX in *.
  lia.
Qed.

Lemma Qred_inject_Z (v : Z) : Qred (inject_Z v) = inject_Z v.
Proof.
  unfold Qred, inject_Z.
  pose proof (Z.ggcd_gcd v 1) as Hg.
  pose proof (Z.ggcd_correct_divisors v 1) as Hd.
  destruct (Z.ggcd v 1) as (g, (a, b)). cbn [fst snd] in *.
  rewrite Z.gcd_1_r in Hg. subst g. destruct Hd as [Ha Hb].
  rewrite Z.mul_1_l in Ha, Hb. subst a b. reflexivity.
Qed.

Lemma decimal_digits (s : string) :
  all_digits s = true -> s <> "" ->
  Stream.decimal s = Some (false, inject_Z (digits_value s)).
Proof.
  intros Hall Hne. unfold Stream.decimal, digits_value.
  destruct s as [|c s]; [congruence|].
  assert (Hc : exists d, Stream.digit c = Some d).
  { cbn [all_digits] in Hall.
    destruct (Stream.digit c) as [d|]; [|discriminate]. now exists d. }
  destruct Hc as (d & Hd).
  apply digit_char in Hd as (_ & Hs & Hsn & _).
  assert (Hsk : Stream.skipws (String c s) = String c s)
    by (cbn [Stream.skipws]; now rewrite Hs).
  assert (Hsg : Stream.sign (String c s) = (false, String c s)).
  { unfold Stream.sign in *. destruct c as [[] [] [] [] [] [] [] []];
      try reflexivity; discriminate. }
  rewrite Hsk, Hsg.
  destruct (digits_all (String c s) 0 0 Hall ltac:(lia)) as (v & E & Hv).
  rewrite E. cbn [fst String.length Nat.add Stream.exponent].
  unfold Stream.scale10. cbn [Z.of_nat Z.sub Z.opp Z.leb Z.compare].
  rewrite Z.pow_0_r, Z.mul_1_r.
  do 2 f_equal. apply Qred_inject_Z.
Qed.

Lemma extract_float_digits (s : string) (old : float) :
  all_digits s = true -> s <> "" ->
  extract_float s old = float_of_decimal (inject_Z (digits_value s)).
Proof.
  intros Hall Hne. unfold extract_float.
  rewrite (decimal_digits s Hall Hne). cbn [andb].
  destruct s as [|c s]; [congruence|].
  assert (Hc : exists d, Stream.digit c = Some d).
  { cbn [all_digits] in Hall.
    destruct (Stream.digit c) as [d|]; [|discriminate]. now exists d. }
  destruct Hc as (d & Hd).
  apply digit_char in Hd as (_ & Hs & _).
  cbn [Stream.skipws]. now rewrite Hs.
Qed.

Lemma is_token_signed (s : string) :
  all_digits s = true -> is_token (String "-" s) = true.
Proof. intros H. now apply is_token_digits. Qed.

Lemma is_token_all_digits (s : string) :
  all_digits s = true -> s <> "" -> is_token s = true.
Proof.
  intros H Hne. destruct s as [|c s]; [congruence|].
  cbn [all_digits] in H.
  destruct (Stream.digit c) as [d|] eqn:Hd; [|discriminate].
  apply digit_char in Hd as (_ & _ & _ & H1 & H2 & H3).
  now apply is_token_digits.
Qed.

(** X11: numbers are stored as written.  After any policy string that
    parses to [p], sub-tokens that are decimal digits of a value in the
    [int] range set the integer outputs to that value, a leading [-]
    gives the negative value, and the float outputs receive the
    conversion of the integer; nothing bounds the values, so the seed
    mismatch count may exceed 2. *)
Theorem digits_are_stored (local noisyHpolymer : bool)
    (clauses : list string) (p : Policy) (ds es fs : string) :
  forallb is_clause clauses = true ->
  parseString (policy_text clauses) local noisyHpolymer = Ok p ->
  all_digits ds = true -> ds <> "" ->
  (digits_value ds <= Stream.INT_MAX)%Z ->
  all_digits es = true -> es <> "" ->
  (digits_value es <= Stream.INT_MAX)%Z ->
  all_digits fs = true -> fs <> "" ->
  (digits_value fs <= Stream.INT_MAX)%Z ->
  parseString (policy_text (clauses ++ [clause_text "MA" [ds]]))
      local noisyHpolymer =
    Ok (set_bonusMatch (digits_value ds) p) /\
  parseString (policy_text (clauses ++ [clause_text "SNP" [String "-" ds]]))
      local noisyHpolymer =
    Ok (set_penSnp (- digits_value ds) p) /\
  parseString (policy_text (clauses ++ [clause_text "RDG" [ds; es]]))
      local noisyHpolymer =
    Ok (set_penRdExLinear (digits_value es)
          (set_penRdExConst (digits_value ds) p)) /\
  parseString (policy_text (clauses ++ [clause_text "SEED" [ds; es; fs]]))
      local noisyHpolymer =
    Ok (set_multiseedPeriod (digits_value fs)
          (set_multiseedLen (digits_value es)
             (set_multiseedMms (digits_value ds) p))) /\
  parseString (policy_text (clauses ++ [clause_text "MIN" [ds; es]]))
      local noisyHpolymer =
    Ok (set_costMinLinear (float_of_decimal (inject_Z (digits_value es)))
          (set_costMinConst (float_of_decimal (inject_Z (digits_value ds)))
             p)).
Proof.
  intros Hcs Hp Hd Hdn Hdm He Hen Hem Hf Hfn Hfm.
  pose proof (is_token_all_digits _ Hd Hdn) as Td.
  pose proof (is_token_all_digits _ He Hen) as Te.
  pose proof (is_token_all_digits _ Hf Hfn) as Tf.
  pose proof (is_token_signed _ Hd) as Tn.
  repeat split; last_clause Hcs Hp; unfold applyTag;
    cbn [String.eqb Ascii.eqb Bool.eqb List.length Nat.eqb Nat.leb negb
         at_ nth];
    rewrite ?extract_int_negative, ?extract_int_digits,
      ?extract_float_digits by assumption;
    reflexivity.
Qed.

Lemma concat_fields (d : ascii) (s : string) :
  s = "" \/ Stream.last_char s <> d ->
  String.concat (String d "") (Stream.fields d s) = s.
Proof.
  induction s as [|c s IH]; intros H; [reflexivity|].
  destruct H as [H|H]; [discriminate|].
  destruct s as [|c' s].
  - cbn in *. destruct (Ascii.eqb_spec c d); [congruence|reflexivity].
  - assert (IH' : String.concat (String d "")
                    (Stream.fields d (String c' s)) = String c' s)
      by (apply IH; right; exact H).
    change (Stream.fields d (String c (String c' s)))
      with (if Ascii.eqb c d
            then EmptyString :: Stream.fields d (String c' s)
            else match Stream.fields d (String c' s) with
                 | [] => [String c EmptyString]
                 | f :: fs => String c f :: fs
                 end).
    pose proof (fields_nonempty d c' s) as Hn.
    destruct (Stream.fields d (String c' s)) as [|f fs]; [congruence|].
    destruct (Ascii.eqb_spec c d) as [->|_].
    + change (String.concat (String d "") ("" :: f :: fs))
        with (String d (String.concat (String d "") (f :: fs))).
      now rewrite IH'.
    + destruct fs as [|g fs].
      * cbn in *. now rewrite IH'.
      * change (String.concat (String d "") (String c f :: g :: fs))
          with (String c (String.concat (String d "") (f :: g :: fs))).
        now rewrite IH'.
Qed.

Lemma fields_free_of_delim (d : ascii) (s : string) :
  forallb (fun f => negb (Stream.has d f)) (Stream.fields d s) = true.
Proof.
  induction s as [|c s IH]; [reflexivity|].
  cbn [Stream.fields].
  destruct (Ascii.eqb c d) eqn:E.
  - cbn. exact IH.
  - destruct (Stream.fields d s) as [|f fs]; cbn in *.
    + now rewrite E.
    + now rewrite E.
Qed.

(** X12: the splitting loops and joining with the delimiter undo each
    other.  Texts that are not empty and hold no delimiter, joined and
    split, come back one by one; a text that does not end with the
    delimiter is the join of what it is split into; and no field the loop
    produces holds the delimiter. *)
Theorem split_join (d : ascii) (l : list string) (s : string) :
  forallb (fun x => negb (x =? "") && negb (Stream.has d x)) l = true ->
  s = "" \/ Stream.last_char s <> d ->
  Stream.split d (String.concat (String d "") l) = l /\
  String.concat (String d "") (Stream.split d s) = s /\
  forallb (fun f => negb (Stream.has d f)) (Stream.split d s) = true.
Proof.
  intros Hl Hs. rewrite !split_fields. split; [|split].
  - now apply fields_concat.
  - now apply concat_fields.
  - apply fields_free_of_delim.
Qed.

(** X13: the IVAL clause as the code reads it.  After any policy string
    that parses to [p], with one to three sub-tokens it is always
    accepted; only the first character of the first sub-token is looked
    at, L, S or C selecting the function and any other character leaving
    the function of [p]; the second and third sub-tokens go through the
    extraction into the two coefficients, starting from those of [p], and
    a coefficient whose sub-token is absent becomes 1.0 (a) or 0.0 (b). *)
Theorem ival_clause (local noisyHpolymer : bool)
    (clauses : list string) (p : Policy) (t a b : string) :
  forallb is_clause clauses = true ->
  parseString (policy_text clauses) local noisyHpolymer = Ok p ->
  is_token t = true -> is_token a = true -> is_token b = true ->
  parseString (policy_text (clauses ++ [clause_text "IVAL" [t; a; b]]))
      local noisyHpolymer =
    Ok (set_multiseedIvalB (extract_float b (multiseedIvalB p))
          (set_multiseedIvalA (extract_float a (multiseedIvalA p))
             (if Ascii.eqb (char0 t) "L"
              then set_multiseedIvalType SEED_IVAL_LINEAR p
              else if Ascii.eqb (char0 t) "S"
              then set_multiseedIvalType SEED_IVAL_SQUARE_ROOT p
              else if Ascii.eqb (char0 t) "C"
              then set_multiseedIvalType SEED_IVAL_CUBE_ROOT p
              else p))) /\
  parseString (policy_text (clauses ++ [clause_text "IVAL" [t; a]]))
      local noisyHpolymer =
    Ok (set_multiseedIvalB (float_of_decimal 0)
          (set_multiseedIvalA (extract_float a (multiseedIvalA p))
             (if Ascii.eqb (char0 t) "L"
              then set_multiseedIvalType SEED_IVAL_LINEAR p
              else if Ascii.eqb (char0 t) "S"
              then set_multiseedIvalType SEED_IVAL_SQUARE_ROOT p
              else if Ascii.eqb (char0 t) "C"
              then set_multiseedIvalType SEED_IVAL_CUBE_ROOT p
              else p))) /\
  parseString (policy_text (clauses ++ [clause_text "IVAL" [t]]))
      local noisyHpolymer =
    Ok (set_multiseedIvalB (float_of_decimal 0)
          (set_multiseedIvalA (float_of_decimal 1)
             (if Ascii.eqb (char0 t) "L"
              then set_multiseedIvalType SEED_IVAL_LINEAR p
              else if Ascii.eqb (char0 t) "S"
              then set_multiseedIvalType SEED_IVAL_SQUARE_ROOT p
              else if Ascii.eqb (char0 t) "C"
              then set_multiseedIvalType SEED_IVAL_CUBE_ROOT p
              else p))).
Proof.
  intros Hcs Hp Ht Ha Hb.
  repeat split; last_clause Hcs Hp; unfold applyTag;
    cbn [String.eqb Ascii.eqb Bool.eqb List.length Nat.eqb Nat.leb negb
         at_ nth];
    split_ifs; reflexivity.
Qed.

(** X14: for every tag but MMP and NP, a clause with one sub-token is
    accepted exactly when the tag is one of the thirteen: each known tag
    works with a single sub-token of any content. *)
Theorem one_token_accepted_iff_known (local noisyHpolymer : bool)
    (clauses : list string) (p : Policy) (tag t : string) :
  forallb is_clause clauses = true ->
  parseString (policy_text clauses) local noisyHpolymer = Ok p ->
  is_tag tag = true -> is_token t = true ->
  tag <> "MMP" -> tag <> "NP" ->
  is_ok (parseString (policy_text (clauses ++ [clause_text tag [t]]))
           local noisyHpolymer) =
  known_tag tag.
Proof.
  intros Hcs Hp Htag Ht Hm Hn.
  last_clause Hcs Hp.
  unfold known_tag, known_tags, applyTag. cbv zeta.
  cbn [existsb List.length Nat.eqb Nat.leb negb].
  apply String.eqb_neq in Hm, Hn.
  tag_cases tag; cbn [orb is_ok]; try reflexivity; discriminate.
Qed.


(** The setting number only shows in error messages. *)
Lemma applyTag_setting_irrelevant (hp : bool) (n n' : nat) (tag : string)
    (toks : list string) (p : Policy) :
  is_ok (applyTag hp n tag toks p) = true ->
  applyTag hp n' tag toks p = applyTag hp n tag toks p.
Proof.
  unfold applyTag. cbv zeta.
  tag_cases tag; split_ifs; cbn [is_ok]; intros; try discriminate;
    reflexivity.
Qed.

Lemma applySetting_setting_irrelevant (hp : bool) (n n' : nat) (c : string)
    (p : Policy) :
  is_ok (applySetting hp n c p) = true ->
  applySetting hp n' c p = applySetting hp n c p.
Proof.
  intros H. pose proof (applySetting_ok_tag _ _ _ _ H) as E.
  rewrite (E n p) in H. rewrite (E n' p), (E n p).
  now apply applyTag_setting_irrelevant.
Qed.

Lemma accepted_ok (hp : bool) (c : string) (n : nat) (p : Policy) :
  accepted hp c = true -> is_ok (applySetting hp n c p) = true.
Proof.
  unfold accepted. intros H. apply andb_true_iff in H as [_ H].
  now rewrite (applySetting_ok_invariant hp hp n 1 c p (initial false hp)).
Qed.

Lemma parseSettings_counter (hp : bool) (l : list string) (n n' : nat)
    (p : Policy) :
  forallb (accepted hp) l = true ->
  parseSettings hp l n p = parseSettings hp l n' p.
Proof.
  revert n n' p; induction l as [|c l IH]; intros n n' p H; [reflexivity|].
  cbn [forallb] in H. apply andb_true_iff in H as [Hc Hl].
  cbn [parseSettings].
  rewrite (applySetting_setting_irrelevant hp (S n') (S n) c p)
    by (now apply accepted_ok).
  apply bind_ext. intros q. now apply IH.
Qed.

Lemma parseSettings_permutation (hp : bool) (l l' : list string) :
  Permutation l l' ->
  forallb (accepted hp) l = true -> NoDup (map clause_tag l) ->
  forall n p, parseSettings hp l n p = parseSettings hp l' n p.
Proof.
  induction 1 as [|x l l' Hperm IH|x y l|l l' l'' H1 IH1 H2 IH2];
    intros Hacc Hnd n p.
  - reflexivity.
  - cbn [forallb map] in *. apply andb_true_iff in Hacc as [_ Hl].
    inversion Hnd; subst. cbn [parseSettings].
    apply bind_ext. intros q. now apply IH.
  - cbn [forallb map] in *.
    apply andb_true_iff in Hacc as [Hy Hxl].
    apply andb_true_iff in Hxl as [Hx Hl].
    inversion Hnd as [|? ? Hnin Hnd']; subst.
    cbn [parseSettings]. rewrite <- !bind_assoc. f_equal.
    apply applySetting_commute.
    + intros E. apply Hnin. left. now symmetry.
    + now apply accepted_ok.
    + now apply accepted_ok.
  - rewrite IH1 by assumption. apply IH2.
    + apply forallb_forall. intros c Hc.
      rewrite forallb_forall in Hacc. apply Hacc.
      apply (Permutation_in c (Permutation_sym H1) Hc).
    + apply (Permutation_NoDup (Permutation_map clause_tag H1) Hnd).
Qed.

(** X15: the order of clauses with different tags is of no account: when
    every clause of a policy string is accepted and no two have the same
    tag, every rearrangement of the clauses parses to the same policy. *)
Theorem distinct_tags_any_order (local noisyHpolymer : bool)
    (l l' : list string) :
  forallb (accepted noisyHpolymer) l = true ->
  NoDup (map clause_tag l) ->
  Permutation l l' ->
  parseString (policy_text l) local noisyHpolymer =
    parseString (policy_text l') local noisyHpolymer /\
  is_ok (parseString (policy_text l) local noisyHpolymer) = true.
Proof.
  intros Hacc Hnd Hperm.
  assert (Hcl : forall k, forallb (accepted noisyHpolymer) k = true ->
                          forallb is_clause k = true).
  { intros k. apply forallb_weaken. unfold accepted. intros c Hc.
    now apply andb_true_iff in Hc as [Hc _]. }
  assert (Hacc' : forallb (accepted noisyHpolymer) l' = true).
  { apply forallb_forall. intros c Hc.
    rewrite forallb_forall in Hacc. apply Hacc.
    apply (Permutation_in c (Permutation_sym Hperm) Hc). }
  rewrite !parseString_fields, !clauses_split by auto.
  split; [now apply parseSettings_permutation|].
  rewrite parseSettings_ok.
  revert Hacc. apply forallb_weaken. unfold accepted. intros c Hc.
  now apply andb_true_iff in Hc as [_ Hc].
Qed.

End Parser.

(** ** The theorems at work on the sample header *)

(** C2 at the policy strings "MIN=7,9;RDG=4,8;RDG=2" and
    "MIN=7,9;RDG=4,8;MIN=2" in noisy-homopolymer mode: the second RDG
    puts the extension penalty back to the mode's default 1, the second
    MIN leaves the linear term at 9.  And at "RDG=4,8;RDG= ": the
    extension penalty goes back to 1 all the same, while the white space
    stores nothing and the opening penalty stays 4. *)
Lemma omitted_tokens_witness :
  parseString Finite NegZero sample_defaults "MIN=7,9;RDG=4,8;RDG=2"
      false true =
    Ok (set_penRdExLinear 1
          (set_penRdExConst 2
             (set_penRdExLinear 8
                (set_penRdExConst 4
                   (set_costMinLinear (Finite 9)
                      (set_costMinConst (Finite 7)
                         (initial sample_defaults false true))))))) /\
  parseString Finite NegZero sample_defaults "MIN=7,9;RDG=4,8;MIN=2"
      false true =
    Ok (set_costMinConst (Finite 2)
          (set_penRdExLinear 8
             (set_penRdExConst 4
                (set_costMinLinear (Finite 9)
                   (set_costMinConst (Finite 7)
                      (initial sample_defaults false true)))))) /\
  parseString Finite NegZero sample_defaults "RDG=4,8;RDG= " false true =
    Ok (set_penRdExLinear 1
          (set_penRdExConst 4 (initial sample_defaults false true))).
Proof.
  pose proof (omitted_tokens sample_float Finite NegZero sample_defaults
                false true ["MIN=7,9"; "RDG=4,8"]
                (set_penRdExLinear 8
                   (set_penRdExConst 4
                      (set_costMinLinear (Finite 9)
                         (set_costMinConst (Finite 7)
                            (initial sample_defaults false true)))))
                "2" "30" eq_refl eq_refl eq_refl eq_refl) as H.
  pose proof (omitted_tokens sample_float Finite NegZero sample_defaults
                false true ["RDG=4,8"]
                (set_penRdExLinear 8
                   (set_penRdExConst 4
                      (initial sample_defaults false true)))
                " " "30" eq_refl eq_refl eq_refl eq_refl) as H'.
  split; [exact (proj1 H)|].
  split; [|exact (proj1 H')].
  exact (proj1 (proj2 (proj2 (proj2 (proj2 (proj2 H)))))).
Defined.

(** C4 at "SNP=3;MA=x1": the match bonus is not a number, the parse goes
    on and stores 0; at "MA=7;MA= ": the second match bonus is white
    space, nothing is stored and the bonus stays 7; and "SNP=3;MIN=7x,y"
    is accepted as "SNP=3;MIN=75,3" is. *)
Lemma numeric_tokens_unchecked_witness :
  parseString Finite NegZero sample_defaults "SNP=3;MA=x1" true false =
    Ok (set_bonusMatch 0 (set_penSnp 3 (initial sample_defaults true false)))
  /\
  parseString Finite NegZero sample_defaults "MA=7;MA= " true false =
    Ok (set_bonusMatch 7 (initial sample_defaults true false)) /\
  is_ok (parseString Finite NegZero sample_defaults "SNP=3;MIN=7x,y"
           true false) =
  is_ok (parseString Finite NegZero sample_defaults "SNP=3;MIN=75,3"
           true false).
Proof.
  pose proof (numeric_tokens_unchecked sample_float Finite NegZero
                sample_defaults true false ["SNP=3"]
                (set_penSnp 3 (initial sample_defaults true false))
                "x1" "MIN" ["7x"; "y"] ["75"; "3"]
                eq_refl eq_refl eq_refl eq_refl ltac:(discriminate)
                eq_refl eq_refl eq_refl eq_refl) as H.
  pose proof (numeric_tokens_unchecked sample_float Finite NegZero
                sample_defaults true false ["MA=7"]
                (set_bonusMatch 7 (initial sample_defaults true false))
                " " "MIN" ["7x"; "y"] ["75"; "3"]
                eq_refl eq_refl eq_refl eq_refl ltac:(discriminate)
                eq_refl eq_refl eq_refl eq_refl) as H'.
  split; [exact (proj1 (proj1 (proj2 H) eq_refl))|].
  split; [exact (proj1 (proj1 (proj2 (proj2 H')) eq_refl))|].
  exact (proj2 (proj2 (proj2 H))).
Defined.

(** C4, the claim refuted: "MA=abc" raises no error; a policy is returned,
    with the match bonus 0. *)
Lemma MA_abc_is_accepted :
  parseString Finite NegZero sample_defaults "MA=abc" true false =
    Ok (set_bonusMatch 0 (initial sample_defaults true false)).
Proof. vm_compute. reflexivity. Qed.

(** C6 at "MA=4;MMP=C44", "MA=4;MMP=X5" and "MA=4;MMP=C". *)
Lemma cost_model_prefix_witness :
  parseString Finite NegZero sample_defaults "MA=4;MMP=C44" true false =
    Ok (set_penMmcType COST_MODEL_CONSTANT
          (set_penMmc 44
             (set_bonusMatch 4 (initial sample_defaults true false)))) /\
  parseString Finite NegZero sample_defaults "MA=4;MMP=X5" true false =
    Throw (UnrecognizedCostModelPrefix "MMP") /\
  parseString Finite NegZero sample_defaults "MA=4;MMP=C" true false =
    Ok (set_penMmcType COST_MODEL_CONSTANT
          (set_penMmc 6
             (set_bonusMatch 4 (initial sample_defaults true false)))).
Proof.
  pose proof (cost_model_prefix sample_float Finite NegZero sample_defaults
                true false ["MA=4"]
                (set_bonusMatch 4 (initial sample_defaults true false))
                "44" "" "Q" "X5" eq_refl eq_refl eq_refl
                ltac:(discriminate)
                ltac:(vm_compute; discriminate) eq_refl eq_refl eq_refl
                ltac:(vm_compute; discriminate)
                ltac:(vm_compute; discriminate)
                ltac:(vm_compute; discriminate)) as H.
  split; [exact (proj1 H)|].
  split; [exact (proj1 (proj2 (proj2 (proj2 H))))|].
  exact (proj1 (proj2 (proj2 (proj2 (proj2 (proj2 (proj2 (proj2
           (proj2 H))))))))).
Defined.

(** C8 at "RDG=1,2,3" and "FL=1,2,3,4", and at "RDG=4,8;RDG= , ,x",
    where the two white-space sub-tokens store nothing. *)
Lemma third_token_ignored_witness :
  parseString Finite NegZero sample_defaults "RDG=1,2,3" false false =
    Ok (set_penRdExLinear 2
          (set_penRdExConst 1 (initial sample_defaults false false))) /\
  parseString Finite NegZero sample_defaults "FL=1,2,3,4" false false =
    Throw (TooManyTokens 1) /\
  parseString Finite NegZero sample_defaults "RDG=4,8;RDG= , ,x"
      false false =
    Ok (set_penRdExLinear 8
          (set_penRdExConst 4 (initial sample_defaults false false))).
Proof.
  pose proof (third_token_ignored sample_float Finite NegZero
                sample_defaults
                false false [] (initial sample_defaults false false)
                "1" "2" "3" "FL" ["1"; "2"; "3"; "4"]
                eq_refl eq_refl eq_refl eq_refl eq_refl eq_refl eq_refl
                ltac:(vm_compute; lia)) as H.
  pose proof (third_token_ignored sample_float Finite NegZero
                sample_defaults
                false false ["RDG=4,8"]
                (set_penRdExLinear 8
                   (set_penRdExConst 4
                      (initial sample_defaults false false)))
                " " " " "x" "FL" ["1"; "2"; "3"; "4"]
                eq_refl eq_refl eq_refl eq_refl eq_refl eq_refl eq_refl
                ltac:(vm_compute; lia)) as H'.
  split; [exact (proj1 (proj1 H))|].
  split; [|exact (proj1 (proj1 H'))].
  exact (proj2 (proj2 (proj2 (proj2 (proj2 (proj2 (proj2 H))))))).
Defined.

(** C8, the claim refuted: RDG with three sub-tokens is accepted, and the
    third one is not looked at. *)
Lemma RDG_three_tokens_accepted :
  parseString Finite NegZero sample_defaults "RDG=1,2,3" false false =
    Ok (set_penRdExLinear 2
          (set_penRdExConst 1 (initial sample_defaults false false))) /\
  parseString Finite NegZero sample_defaults "RDG=1,2,3" false false =
    parseString Finite NegZero sample_defaults "RDG=1,2" false false.
Proof. split; vm_compute; reflexivity. Qed.

(** C9 at the clauses MA=4 and RDG=1,2 between SNP=3 and MIN=7. *)
Lemma distinct_tags_commute_witness :
  parseString Finite NegZero sample_defaults "SNP=3;MA=4;RDG=1,2;MIN=7" true false =
  parseString Finite NegZero sample_defaults "SNP=3;RDG=1,2;MA=4;MIN=7" true false.
Proof.
  exact (proj1 (distinct_tags_commute sample_float Finite NegZero sample_defaults
                  true false ["SNP=3"] ["MIN=7"] "MA=4" "RDG=1,2"
                  eq_refl eq_refl ltac:(vm_compute; discriminate)
                  eq_refl eq_refl)).
Defined.

(** C10 at "MA=4;SNP=2" and at the clause RDG=1 between MA=4 and
    SNP=2. *)
Lemma trailing_delimiters_witness :
  parseString Finite NegZero sample_defaults "MA=4;SNP=2;" true false =
    parseString Finite NegZero sample_defaults "MA=4;SNP=2" true false /\
  parseString Finite NegZero sample_defaults "MA=4;RDG=1,;SNP=2" true false =
    parseString Finite NegZero sample_defaults "MA=4;RDG=1;SNP=2" true false.
Proof.
  pose proof (trailing_delimiters sample_float Finite NegZero sample_defaults
                true false "MA=4;SNP=2" "RDG=1" 1
                (initial sample_defaults true false) ["MA=4"] ["SNP=2"]
                "MA=4" "SNP=1"
                ltac:(discriminate) ltac:(vm_compute; discriminate)
                ltac:(discriminate) ltac:(vm_compute; discriminate)
                ltac:(vm_compute; discriminate)) as H.
  split; [exact (proj1 H)|exact (proj1 (proj2 (proj2 H)) eq_refl)].
Defined.

(** ** The further properties at work on the sample header *)

(** X1 at "MA=4;ma=4": tags are compared letter for letter. *)
Lemma unknown_tag_rejected_witness :
  parseString Finite NegZero sample_defaults "MA=4;ma=4" true false =
    Throw (UnknownTag "ma").
Proof.
  exact (unknown_tag_rejected sample_float Finite NegZero sample_defaults
           true false ["MA=4"]
           (set_bonusMatch 4 (initial sample_defaults true false))
           "ma" ["4"] eq_refl eq_refl eq_refl eq_refl
           ltac:(discriminate) eq_refl ltac:(vm_compute; lia)).
Defined.

(** X2 at "RDG=1,,2". *)
Lemma empty_token_rejected_witness :
  parseString Finite NegZero sample_defaults "RDG=1,,2" false false =
    Throw (EmptyToken 1 2).
Proof.
  exact (empty_token_rejected sample_float Finite NegZero sample_defaults
           false false [] (initial sample_defaults false false)
           "RDG" ["1"; ""; "2"] 2 eq_refl eq_refl eq_refl eq_refl
           ltac:(discriminate) ltac:(vm_compute; lia) eq_refl).
Defined.

(** X3 at "SNP=3;MA=1,2" and "SNP=3;MMP=C1,C2". *)
Lemma one_token_tags_witness :
  parseString Finite NegZero sample_defaults "SNP=3;MA=1,2" false false =
    Throw (NotOneToken 2) /\
  parseString Finite NegZero sample_defaults "SNP=3;MMP=C1,C2" false false =
    Throw (NotOneTokenTag "MMP").
Proof.
  pose proof (one_token_tags sample_float Finite NegZero sample_defaults
                false false ["SNP=3"]
                (set_penSnp 3 (initial sample_defaults false false)))
    as H.
  split.
  - exact (proj1 (H ["1"; "2"] eq_refl eq_refl eq_refl
                    ltac:(vm_compute; lia))).
  - exact (proj1 (proj2 (proj2 (H ["C1"; "C2"] eq_refl eq_refl eq_refl
                                  ltac:(vm_compute; lia))))).
Defined.

(** X4 at "MA", "MA=3=4" and "MA==". *)
Lemma clause_shape_errors_witness :
  parseString Finite NegZero sample_defaults "MA" true false =
    Throw (MalformedClause 1) /\
  parseString Finite NegZero sample_defaults "MA=3=4" true false =
    Throw (MalformedClause 1) /\
  parseString Finite NegZero sample_defaults "MA==" true false =
    Throw (NoToken 1).
Proof.
  exact (clause_shape_errors sample_float Finite NegZero sample_defaults
           true false [] (initial sample_defaults true false)
           "MA" "MA" "3" "4"
           eq_refl eq_refl eq_refl eq_refl eq_refl eq_refl eq_refl).
Defined.

(** X5 at "MA=4;XY=1;SNP=2;broken". *)
Lemma first_error_wins_witness :
  parseString Finite NegZero sample_defaults "MA=4;XY=1;SNP=2;broken" true false =
    Throw (UnknownTag "XY").
Proof.
  exact (first_error_wins sample_float Finite NegZero sample_defaults
           true false ["MA=4"] ["SNP=2"; "broken"]
           (set_bonusMatch 4 (initial sample_defaults true false))
           "XY=1" (UnknownTag "XY") eq_refl eq_refl eq_refl).
Defined.

(** X7 at "MMP=Q;NP=R;IVAL=L" in local mode. *)
Lemma never_assigned_outputs_witness :
  bonusMatchType
    (set_multiseedIvalB (Finite 0)
       (set_multiseedIvalA (Finite 1)
          (set_multiseedIvalType SEED_IVAL_LINEAR
             (set_penNType COST_MODEL_ROUNDED_QUAL
                (set_penMmcType COST_MODEL_QUAL
                   (initial sample_defaults true false)))))) =
    COST_MODEL_CONSTANT /\
  nCatPair
    (set_multiseedIvalB (Finite 0)
       (set_multiseedIvalA (Finite 1)
          (set_multiseedIvalType SEED_IVAL_LINEAR
             (set_penNType COST_MODEL_ROUNDED_QUAL
                (set_penMmcType COST_MODEL_QUAL
                   (initial sample_defaults true false)))))) =
    false.
Proof.
  exact (never_assigned_outputs sample_float Finite NegZero sample_defaults
           "MMP=Q;NP=R;IVAL=L" true false _ eq_refl).
Defined.

(** X10 at "SNP=1;MIN=7;MIN=75,9", and the clause that stores nothing. *)
Lemma later_clause_overwrites_witness :
  parseString Finite NegZero sample_defaults "SNP=1;MIN=7;MIN=75,9"
      false false =
    parseString Finite NegZero sample_defaults "SNP=1;MIN=75,9"
      false false /\
  parseString Finite NegZero sample_defaults "MMP=C5;MMP=C" false false =
    Ok (set_penMmcType COST_MODEL_CONSTANT
          (set_penMmc 5 (initial sample_defaults false false))).
Proof.
  assert (Hsub : "MIN" = "MMP" \/ "MIN" = "NP" ->
                 char0 (at_ ["75"; "9"] 0) = "C"%char ->
                 has_text (substr1 (at_ ["75"; "9"] 0)) = true)
    by (intros _ _; reflexivity).
  pose proof (later_clause_overwrites sample_float Finite NegZero
                sample_defaults false false ["SNP=1"] "MIN"
                ["7"] ["75"; "9"]
                eq_refl eq_refl ltac:(discriminate) eq_refl eq_refl
                ltac:(vm_compute; lia) eq_refl eq_refl Hsub
                eq_refl eq_refl) as H.
  split; [exact (proj1 H)|exact (proj2 (proj2 H))].
Defined.

(** X11 at "SEED=7,30,12" and "SNP=-7". *)
Lemma digits_are_stored_witness :
  parseString Finite NegZero sample_defaults "SEED=7,30,12" false false =
    Ok (set_multiseedPeriod 12
          (set_multiseedLen 30
             (set_multiseedMms 7 (initial sample_defaults false false)))) /\
  parseString Finite NegZero sample_defaults "SNP=-7" false false =
    Ok (set_penSnp (-7) (initial sample_defaults false false)).
Proof.
  pose proof (digits_are_stored sample_float Finite NegZero sample_defaults
                false false [] (initial sample_defaults false false)
                "7" "30" "12" eq_refl eq_refl
                eq_refl ltac:(discriminate) ltac:(vm_compute; discriminate)
                eq_refl ltac:(discriminate) ltac:(vm_compute; discriminate)
                eq_refl ltac:(discriminate) ltac:(vm_compute; discriminate))
    as H.
  split; [exact (proj1 (proj2 (proj2 (proj2 H))))|exact (proj1 (proj2 H))].
Defined.

(** X12 at the clauses MA=4 and SNP=2, and at the text "a;;b". *)
Lemma split_join_witness :
  Stream.split ";" "MA=4;SNP=2" = ["MA=4"; "SNP=2"] /\
  String.concat ";" (Stream.split ";" "a;;b") = "a;;b".
Proof.
  assert (Hs : "a;;b" = "" \/ Stream.last_char "a;;b" <> ";"%char)
    by (right; vm_compute; discriminate).
  pose proof (split_join ";" ["MA=4"; "SNP=2"] "a;;b" eq_refl Hs) as H.
  split; [exact (proj1 H)|exact (proj1 (proj2 H))].
Defined.

(** X13 at "IVAL=Linear,2,3", "IVAL=C,2" and "IVAL=x", and at
    "IVAL=L,2,3;IVAL=S, , ", whose white-space coefficients store
    nothing. *)
Lemma ival_clause_witness :
  parseString Finite NegZero sample_defaults "IVAL=Linear,2,3"
      false false =
    Ok (set_multiseedIvalB (Finite 3)
          (set_multiseedIvalA (Finite 2)
             (set_multiseedIvalType SEED_IVAL_LINEAR
                (initial sample_defaults false false)))) /\
  parseString Finite NegZero sample_defaults "IVAL=C,2" false false =
    Ok (set_multiseedIvalB (Finite 0)
          (set_multiseedIvalA (Finite 2)
             (set_multiseedIvalType SEED_IVAL_CUBE_ROOT
                (initial sample_defaults false false)))) /\
  parseString Finite NegZero sample_defaults "IVAL=x" false false =
    Ok (set_multiseedIvalB (Finite 0)
          (set_multiseedIvalA (Finite 1)
             (initial sample_defaults false false))) /\
  parseString Finite NegZero sample_defaults "IVAL=L,2,3;IVAL=S, , "
      false false =
    Ok (set_multiseedIvalB (Finite 3)
          (set_multiseedIvalA (Finite 2)
             (set_multiseedIvalType SEED_IVAL_SQUARE_ROOT
                (initial sample_defaults false false)))).
Proof.
  split; [|split; [|split]].
  - exact (proj1 (ival_clause sample_float Finite NegZero sample_defaults
                    false false [] (initial sample_defaults false false)
                    "Linear" "2" "3" eq_refl eq_refl eq_refl eq_refl
                    eq_refl)).
  - exact (proj1 (proj2
             (ival_clause sample_float Finite NegZero sample_defaults
                false false [] (initial sample_defaults false false)
                "C" "2" "3" eq_refl eq_refl eq_refl eq_refl eq_refl))).
  - exact (proj2 (proj2
             (ival_clause sample_float Finite NegZero sample_defaults
                false false [] (initial sample_defaults false false)
                "x" "2" "3" eq_refl eq_refl eq_refl eq_refl eq_refl))).
  - exact (proj1
             (ival_clause sample_float Finite NegZero sample_defaults
                false false ["IVAL=L,2,3"]
                (set_multiseedIvalB (Finite 3)
                   (set_multiseedIvalA (Finite 2)
                      (set_multiseedIvalType SEED_IVAL_LINEAR
                         (initial sample_defaults false false))))
                "S" " " " " eq_refl eq_refl eq_refl eq_refl eq_refl)).
Defined.

(** X14 at "POSF=x" and "posf=x". *)
Lemma one_token_accepted_iff_known_witness :
  is_ok (parseString Finite NegZero sample_defaults "POSF=x" false false) = true /\
  is_ok (parseString Finite NegZero sample_defaults "posf=x" false false) = false.
Proof.
  split.
  - exact (one_token_accepted_iff_known sample_float Finite NegZero
             sample_defaults false false []
             (initial sample_defaults false false) "POSF" "x"
             eq_refl eq_refl eq_refl eq_refl
             ltac:(discriminate) ltac:(discriminate)).
  - exact (one_token_accepted_iff_known sample_float Finite NegZero
             sample_defaults false false []
             (initial sample_defaults false false) "posf" "x"
             eq_refl eq_refl eq_refl eq_refl
             ltac:(discriminate) ltac:(discriminate)).
Defined.

(** X15 at the clauses MA=4, RDG=1,2 and MIN=7. *)
Lemma distinct_tags_any_order_witness :
  parseString Finite NegZero sample_defaults "MA=4;RDG=1,2;MIN=7" true false =
    parseString Finite NegZero sample_defaults "MIN=7;MA=4;RDG=1,2" true false.
Proof.
  refine (proj1 (distinct_tags_any_order sample_float Finite NegZero sample_defaults
                   true false ["MA=4"; "RDG=1,2"; "MIN=7"]
                   ["MIN=7"; "MA=4"; "RDG=1,2"] eq_refl _ _)).
  - vm_compute. repeat constructor; cbn; intuition discriminate.
  - exact (Permutation_sym
             (Permutation_cons_append ["MA=4"; "RDG=1,2"] "MIN=7")).
Defined.
